(** * The outfit recommendation service of the Smart Closet application

    A shallow embedding of [src/services/AIService.ts] (class
    [IntelligentService]) together with the properties its specification
    states about it.

    Modelling conventions, fixed once for the whole development:

    - a JavaScript [number] is an exact rational ([Q]): the tables hold
      one-digit decimals and the scorer only adds and divides them, so
      the development follows the arithmetic of the code and leaves the
      rounding of IEEE doubles aside (one remark checks the arithmetic
      of the worked example in binary64); the count of recommendations
      asked for is a natural number;
    - a JavaScript [string] is a [string] of bytes; [toLowerCase] acts on
      the letters A-Z (every key of the authored tables is ASCII);
    - an object literal used as a dictionary is a [gmap string _] and a
      read [obj[k]] is a lookup of an own property ([None] is
      [undefined]); the two lower-case names every object inherits
      ([constructor], [__proto__]) are not modelled, no item is expected
      to carry them as its colour or category; a [Set<string>] is a
      [gset string];
    - [Math.random()] reads the next draw of a random source, an infinite
      sequence of numbers of the interval [0,1); the position in the
      sequence is threaded through the code as state;
    - the instance fields of the service are the record
      [IntelligentService]; every method takes the instance as [this]. *)

From Stdlib Require Import QArith Qround Lia Lqa PrimFloat.
From stdpp Require Import gmap strings list sorting.

Open Scope Q_scope.

(** ** JavaScript primitives used by the service *)

Module Js.

(** [String.prototype.toLowerCase] on ASCII letters. *)
Definition lower_ascii (c : Ascii.ascii) : Ascii.ascii :=
  let n := Ascii.nat_of_ascii c in
  if (65 <=? n)%nat && (n <=? 90)%nat then Ascii.ascii_of_nat (n + 32) else c.

Fixpoint toLowerCase (s : string) : string :=
  match s with
  | EmptyString => EmptyString
  | String c s' => String (lower_ascii c) (toLowerCase s')
  end.

(** Truthiness of a number that may be [undefined]: [undefined] and [0]
    are falsy. *)
Definition truthy (v : option Q) : bool :=
  match v with
  | Some q => negb (Qeq_bool q 0)
  | None => false
  end.

(** [v || d] for a number [v] that may be [undefined]. *)
Definition or_default (v : option Q) (d : Q) : Q :=
  match v with
  | Some q => if Qeq_bool q 0 then d else q
  | None => d
  end.

(** Truthiness of an optional string argument: [undefined] and the empty
    string are falsy. *)
Definition truthy_string (v : option string) : bool :=
  match v with
  | Some s => negb (String.eqb s "")
  | None => false
  end.

(** [Array.prototype.includes] on an array of strings. *)
Definition includes (xs : list string) (x : string) : bool :=
  bool_decide (x ∈ xs).

(** [Array.prototype.sort]: the language requires a stable sort, and for
    a consistent comparator the result does not depend on the algorithm.
    [before x y] is the test [compare(x, y) <= 0]: [x] may stay in front
    of [y]. The model is the stable insertion sort. *)
Fixpoint insert_sorted {A : Type} (before : A → A → bool) (x : A) (l : list A)
    : list A :=
  match l with
  | [] => [x]
  | y :: l' =>
      if before x y then x :: y :: l' else y :: insert_sorted before x l'
  end.

Fixpoint sort {A : Type} (before : A → A → bool) (l : list A) : list A :=
  match l with
  | [] => []
  | x :: l' => insert_sorted before x (sort before l')
  end.

(** [Array.prototype.sort()] without comparator on strings, and
    [Array.prototype.join]. *)
Definition sort_strings (l : list string) : list string := sort String.leb l.

Fixpoint join (sep : string) (l : list string) : string :=
  match l with
  | [] => ""
  | [s] => s
  | s :: l' => s +:+ sep +:+ join sep l'
  end.

(** [xs[i]] for a JavaScript number [i]; [None] is [undefined]. *)
Definition index {A : Type} (xs : list A) (i : Z) : option A :=
  if (i <? 0)%Z then None else xs !! Z.to_nat i.

End Js.

(** ** The random source *)

Module Random.

Definition in_unit_interval (q : Q) : bool :=
  Qle_bool 0 q && negb (Qle_bool 1 q).

(** One result of [Math.random()]: a number [r] with [0 <= r < 1]. *)
Record Draw := mkDraw {
  draw_val : Q;
  draw_ok : in_unit_interval draw_val = true
}.

Definition Source : Type := nat → Draw.

(** A computation that may call [Math.random()]: it reads the source
    from the current position and returns the next position. *)
Definition Rand (A : Type) : Type := Source → nat → A * nat.

Definition ret {A : Type} (a : A) : Rand A := λ _ k, (a, k).

Definition bind {A B : Type} (m : Rand A) (f : A → Rand B) : Rand B :=
  λ src k, let '(a, k') := m src k in f a src k'.

(** [Math.random()] *)
Definition random : Rand Draw := λ src k, (src k, S k).

(** [Math.floor(r * len)] *)
Definition randomIndex (r : Draw) (len : nat) : nat :=
  Z.to_nat (Qfloor (draw_val r * inject_Z (Z.of_nat len))).

(** [xs[Math.floor(Math.random() * xs.length)]] for a non-empty [xs]
    whose first element is [x0]. The index is always in range
    ([randomIndex_lt] below), so the default of [nth] is never read. *)
Definition pick {A : Type} (x0 : A) (xs : list A) : Rand A :=
  bind random (λ r, ret (nth (randomIndex r (length xs)) xs x0)).

(** Constant and alternating sources, for examples. *)
Definition draw_zero : Draw := mkDraw 0 eq_refl.
Definition draw_high : Draw := mkDraw 0.9 eq_refl.
Definition always (d : Draw) : Source := λ _, d.
Definition alternate (d0 d1 : Draw) : Source :=
  λ k, if Nat.even k then d0 else d1.
Definition switch_at (n : nat) (d0 d1 : Draw) : Source :=
  λ k, if (k <? n)%nat then d0 else d1.

End Random.

Import Random.

Notation "'let*' x ':=' m 'in' k" := (Random.bind m (λ x, k))
  (at level 10, x name, m at level 100, k at level 200, only parsing).

(** ** Data model *)

(** [ClothingItem], declared by the closet screen. *)
Record ClothingItem := mkItem {
  uri : string;
  category : string;
  color : string
}.

#[global] Instance ClothingItem_eq_dec : EqDecision ClothingItem.
Proof. solve_decision. Defined.

Record OutfitRating := mkRating {
  outfitId : string;
  rating : Q;
  timestamp : Z
}.

(** [reason] is read from an array by a computed index, so it may be
    [undefined] ([None]). *)
Record OutfitRecommendation := mkRecommendation {
  items : list ClothingItem;
  score : Q;
  reason : option string;
  style : string
}.

(** The fields of [class IntelligentService]. *)
Record IntelligentService := mkService {
  outfitRatings : list OutfitRating;
  colorCompatibilityMatrix : gmap string (gmap string Q);
  stylePreferences : gmap string Q
}.

(** ** The colour table *)

Definition colors : list string :=
  ["red"; "blue"; "green"; "yellow"; "purple"; "orange"; "pink"; "brown";
   "black"; "white"; "gray"].

Definition compatibilityRules : gmap string (gmap string Q) :=
  list_to_map [
    ("red", list_to_map [("green", 0.9); ("blue", 0.7); ("yellow", 0.6); ("purple", 0.8); ("orange", 0.5); ("pink", 0.8); ("brown", 0.7); ("black", 0.9); ("white", 0.8); ("gray", 0.7)]);
    ("blue", list_to_map [("red", 0.7); ("green", 0.6); ("yellow", 0.8); ("purple", 0.9); ("orange", 0.7); ("pink", 0.6); ("brown", 0.6); ("black", 0.9); ("white", 0.8); ("gray", 0.8)]);
    ("green", list_to_map [("red", 0.9); ("blue", 0.6); ("yellow", 0.7); ("purple", 0.6); ("orange", 0.8); ("pink", 0.5); ("brown", 0.8); ("black", 0.9); ("white", 0.8); ("gray", 0.7)]);
    ("yellow", list_to_map [("red", 0.6); ("blue", 0.8); ("green", 0.7); ("purple", 0.7); ("orange", 0.9); ("pink", 0.6); ("brown", 0.7); ("black", 0.9); ("white", 0.8); ("gray", 0.6)]);
    ("purple", list_to_map [("red", 0.8); ("blue", 0.9); ("green", 0.6); ("yellow", 0.7); ("orange", 0.6); ("pink", 0.8); ("brown", 0.6); ("black", 0.9); ("white", 0.8); ("gray", 0.7)]);
    ("orange", list_to_map [("red", 0.5); ("blue", 0.7); ("green", 0.8); ("yellow", 0.9); ("purple", 0.6); ("pink", 0.7); ("brown", 0.8); ("black", 0.9); ("white", 0.8); ("gray", 0.6)]);
    ("pink", list_to_map [("red", 0.8); ("blue", 0.6); ("green", 0.5); ("yellow", 0.6); ("purple", 0.8); ("orange", 0.7); ("brown", 0.5); ("black", 0.9); ("white", 0.8); ("gray", 0.7)]);
    ("brown", list_to_map [("red", 0.7); ("blue", 0.6); ("green", 0.8); ("yellow", 0.7); ("purple", 0.6); ("orange", 0.8); ("pink", 0.5); ("black", 0.9); ("white", 0.8); ("gray", 0.8)]);
    ("black", list_to_map [("red", 0.9); ("blue", 0.9); ("green", 0.9); ("yellow", 0.9); ("purple", 0.9); ("orange", 0.9); ("pink", 0.9); ("brown", 0.9); ("white", 0.8); ("gray", 0.9)]);
    ("white", list_to_map [("red", 0.8); ("blue", 0.8); ("green", 0.8); ("yellow", 0.8); ("purple", 0.8); ("orange", 0.8); ("pink", 0.8); ("brown", 0.8); ("black", 0.8); ("gray", 0.8)]);
    ("gray", list_to_map [("red", 0.7); ("blue", 0.8); ("green", 0.7); ("yellow", 0.6); ("purple", 0.7); ("orange", 0.6); ("pink", 0.7); ("brown", 0.8); ("black", 0.9); ("white", 0.8)])
  ].

(** [obj[k1]?.[k2]] on a two-level dictionary. *)
Definition lookup2 {V : Type} (obj : gmap string (gmap string V)) (k1 k2 : string) : option V :=
  obj !! k1 ≫= λ row, row !! k2.

(** [obj[k1][k2] = v], for a row [obj[k1]] created beforehand. *)
Definition assign2 {V : Type} (k1 k2 : string) (v : V)
    (obj : gmap string (gmap string V)) : gmap string (gmap string V) :=
  <[k1 := <[k2 := v]> (default ∅ (obj !! k1))]> obj.

(** The value the constructor stores at [matrix[color1][color2]]. *)
Definition matrixEntry (color1 color2 : string) : Q :=
  if bool_decide (color1 = color2) then 1.0
  else if Js.truthy (lookup2 compatibilityRules color1 color2)
       then default 0 (lookup2 compatibilityRules color1 color2)
       else 0.5.

(** [initializeColorCompatibilityMatrix]: the two nested [forEach] loops,
    run on the matrix [m] held by the instance. *)
Definition initializeColorCompatibilityMatrix
    (m : gmap string (gmap string Q)) : gmap string (gmap string Q) :=
  foldl (λ m1 color1,
           foldl (λ m2 color2, assign2 color1 color2 (matrixEntry color1 color2) m2)
                 (<[color1 := ∅]> m1) colors)
        m colors.

(** The instance the module exports: [new IntelligentService()], before
    any stored preference has been loaded. *)
Definition newService : IntelligentService :=
  {| outfitRatings := [];
     colorCompatibilityMatrix := initializeColorCompatibilityMatrix ∅;
     stylePreferences := ∅ |}.

(** ** Colour and style compatibility *)

Definition colorMapping : gmap string string :=
  list_to_map [
    ("red", "red"); ("blue", "blue"); ("green", "green"); ("yellow", "yellow");
    ("purple", "purple"); ("orange", "orange"); ("pink", "pink"); ("brown", "brown");
    ("black", "black"); ("white", "white"); ("gray", "gray"); ("grey", "gray");
    ("navy", "blue"); ("dark blue", "blue"); ("light blue", "blue");
    ("dark green", "green"); ("light green", "green");
    ("dark red", "red"); ("light red", "red");
    ("beige", "brown"); ("tan", "brown"); ("cream", "white")
  ].

Definition extractColorFromItem (item : ClothingItem) : string :=
  let color := Js.toLowerCase (color item) in
  default "gray" (colorMapping !! color).

Definition calculateColorCompatibility (this : IntelligentService)
    (item1 item2 : ClothingItem) : Q :=
  let color1 := extractColorFromItem item1 in
  let color2 := extractColorFromItem item2 in
  Js.or_default (lookup2 (colorCompatibilityMatrix this) color1 color2) 0.5.

Definition styleRules : gmap string (gmap string Q) :=
  list_to_map [
    ("t-shirt", list_to_map [("jeans", 0.9); ("shorts", 0.8); ("sweatpants", 0.7); ("shirt", 0.6); ("dress", 0.3); ("skirt", 0.4)]);
    ("shirt", list_to_map [("jeans", 0.9); ("shorts", 0.6); ("sweatpants", 0.5); ("t-shirt", 0.6); ("dress", 0.4); ("skirt", 0.8)]);
    ("jeans", list_to_map [("t-shirt", 0.9); ("shirt", 0.9); ("shorts", 0.6); ("sweatpants", 0.5); ("dress", 0.3); ("skirt", 0.4)]);
    ("dress", list_to_map [("t-shirt", 0.3); ("shirt", 0.4); ("jeans", 0.3); ("shorts", 0.2); ("sweatpants", 0.2); ("skirt", 0.6)]);
    ("skirt", list_to_map [("t-shirt", 0.4); ("shirt", 0.8); ("jeans", 0.4); ("shorts", 0.3); ("sweatpants", 0.3); ("dress", 0.6)])
  ].

Definition calculateStyleCompatibility (item1 item2 : ClothingItem) : Q :=
  let category1 := Js.toLowerCase (category item1) in
  let category2 := Js.toLowerCase (category item2) in
  Js.or_default (lookup2 styleRules category1 category2) 0.5.


(** ** The candidate generator *)

(** The local variables [items] and [usedCategories] of
    [generateSingleOutfitWithRequired]. *)
Record Builder := mkBuilder {
  b_items : list ClothingItem;
  b_used : gset string
}.

(** [items.push(x); usedCategories.add(cat)] *)
Definition push (x : ClothingItem) (cat : string) (b : Builder) : Builder :=
  {| b_items := b_items b ++ [x]; b_used := {[cat]} ∪ b_used b |}.

Definition hasCategory (cat : string) (pool : list ClothingItem) : list ClothingItem :=
  filter (λ item, category item = cat) pool.

Definition inLayer (layer : list string) (pool : list ClothingItem) : list ClothingItem :=
  filter (λ item, Js.includes layer (category item) = true) pool.

(** [template[i]]; the caller passes an array with four rows. *)
Definition layer (template : list (list string)) (i : nat) : list string :=
  default [] (template !! i).

(** Strategy 2: one random item of a layer, when the pool has any. *)
Definition addFromLayer (pool : list ClothingItem) (row : list string)
    (b : Builder) : Rand Builder :=
  let xs := inLayer row pool in
  match xs with
  | [] => ret b
  | x0 :: _ =>
      let* x := pick x0 xs in
      ret (push x (category x) b)
  end.

(** Strategies 1 and 2: the first dress of the pool if it has one,
    otherwise a top and a bottom. *)
Definition chooseBase (pool : list ClothingItem) (template : list (list string))
    : Rand Builder :=
  match list_find (λ item, category item = "Dress") pool with
  | Some (_, dress) => ret (push dress "Dress" (mkBuilder [] ∅))
  | None =>
      let* b1 := addFromLayer pool (layer template 0) (mkBuilder [] ∅) in
      addFromLayer pool (layer template 1) b1
  end.

(** Strategy 3: the body of the loop over [requiredCategories], and the
    loop. *)
Definition addRequired (pool : list ClothingItem) (cat : string) (b : Builder)
    : Rand Builder :=
  if bool_decide (cat ∈ b_used b) then ret b
  else let candidates := hasCategory cat pool in
       match candidates with
       | [] => ret b
       | x0 :: _ =>
           let* picked := pick x0 candidates in
           ret (push picked cat b)
       end.

Fixpoint addAllRequired (pool : list ClothingItem) (requiredCategories : list string)
    (b : Builder) : Rand Builder :=
  match requiredCategories with
  | [] => ret b
  | cat :: rest =>
      let* b' := addRequired pool cat b in
      addAllRequired pool rest b'
  end.

(** Strategy 4, written three times in the source (Shoes above 0.3, Hat
    above 0.5, Other above 0.7): the draw of the threshold test is taken
    only when the pool has such an item, the second draw only when the
    test passes and the category is still unused. *)
Definition addAccessory (pool : list ClothingItem) (cat : string) (threshold : Q)
    (b : Builder) : Rand Builder :=
  let xs := hasCategory cat pool in
  match xs with
  | [] => ret b
  | x0 :: _ =>
      let* r := random in
      if negb (Qle_bool (draw_val r) threshold) && negb (bool_decide (cat ∈ b_used b))
      then let* x := pick x0 xs in ret (push x cat b)
      else ret b
  end.

(** The method returns the object [{ items }]; the model returns its
    only field. *)
Definition generateSingleOutfitWithRequired (clothingItems : list ClothingItem)
    (template : list (list string)) (requiredCategories : list string)
    : Rand (list ClothingItem) :=
  let* b0 := chooseBase clothingItems template in
  let* b1 := addAllRequired clothingItems requiredCategories b0 in
  let* b2 := addAccessory clothingItems "Shoes" 0.3 b1 in
  let* b3 := addAccessory clothingItems "Hat" 0.5 b2 in
  let* b4 := addAccessory clothingItems "Other" 0.7 b3 in
  ret (b_items b4).

(** ** Scoring, style and reason *)

(** The contribution of one pair: [(colorScore + styleScore) / 2]. *)
Definition pairScore (this : IntelligentService) (a b : ClothingItem) : Q :=
  (calculateColorCompatibility this a b + calculateStyleCompatibility a b) / 2.

(** The inner loop [for (j = i + 1; ...)], on the item [items[i]] and the
    items after it; the accumulator is [(totalScore, comparisons)]. *)
Fixpoint scoreAgainst (this : IntelligentService) (xi : ClothingItem)
    (after : list ClothingItem) (acc : Q * nat) : Q * nat :=
  match after with
  | [] => acc
  | xj :: after' =>
      scoreAgainst this xi after' (acc.1 + pairScore this xi xj, S acc.2)
  end.

(** The outer loop [for (i = 0; ...)]. *)
Fixpoint scorePairs (this : IntelligentService) (items : list ClothingItem)
    (acc : Q * nat) : Q * nat :=
  match items with
  | [] => acc
  | xi :: after => scorePairs this after (scoreAgainst this xi after acc)
  end.

Definition calculateOutfitScore (this : IntelligentService)
    (items : list ClothingItem) : Q :=
  if (length items <? 2)%nat then 0
  else
    let '(totalScore, comparisons) := scorePairs this items (0, 0%nat) in
    if (0 <? comparisons)%nat then totalScore / inject_Z (Z.of_nat comparisons) else 0.

Definition classifyOutfitStyle (items : list ClothingItem) : string :=
  let categories := (λ item, Js.toLowerCase (category item)) <$> items in
  if Js.includes categories "dress" then "Elegant"
  else if Js.includes categories "shirt" && Js.includes categories "jeans" then "Smart Casual"
  else if Js.includes categories "t-shirt" && Js.includes categories "jeans" then "Casual"
  else if Js.includes categories "sweatpants" || Js.includes categories "shorts" then "Athletic"
  else "Casual".

Definition generateRecommendationReason (items : list ClothingItem) (score : Q)
    (style : string) : option string :=
  let reasons := [
    "Great " +:+ Js.toLowerCase style +:+ " combination with excellent color harmony";
    "Perfect " +:+ Js.toLowerCase style +:+ " look with complementary colors";
    "Stylish " +:+ Js.toLowerCase style +:+ " outfit with balanced proportions";
    "Classic " +:+ Js.toLowerCase style +:+ " pairing that works for many occasions";
    "Trendy " +:+ Js.toLowerCase style +:+ " combination with modern appeal"
  ] in
  let index := Qfloor (score * inject_Z (Z.of_nat (length reasons))) in
  Js.index reasons (Z.min index (Z.of_nat (length reasons) - 1)).

(** ** Filters *)

Definition occasionMap : gmap string (list string) :=
  list_to_map [
    ("Casual", ["T-shirt"; "Shirt"; "Jeans"; "Sweatpants"; "Shorts"; "Hoodie"; "Shoes"]);
    ("Formal", ["Shirt"; "Dress"; "Skirt"; "Shoes"]);
    ("Athletic", ["T-shirt"; "Sweatpants"; "Shorts"; "Shoes"]);
    ("Business", ["Shirt"; "Dress"; "Skirt"; "Shoes"])
  ].

Definition filterByOccasion (items : list ClothingItem) (occasion : string)
    : list ClothingItem :=
  let allowed := default [] (occasionMap !! occasion) in
  filter (λ item, Js.includes allowed (category item) = true) items.

Definition weatherMap : gmap string (list string) :=
  list_to_map [
    ("Hot", ["T-shirt"; "Shorts"; "Skirt"; "Dress"; "Hat"; "Shoes"]);
    ("Mild", ["T-shirt"; "Shirt"; "Jeans"; "Shorts"; "Skirt"; "Dress"; "Shoes"]);
    ("Cold", ["Jacket"; "Sweatpants"; "Jeans"; "Shirt"; "Hat"; "Shoes"]);
    ("Rainy", ["Jacket"; "Jeans"; "Sweatpants"; "Shirt"; "Hat"; "Shoes"])
  ].

(** The pool the generator draws from: the first part of
    [generateOutfitRecommendations], up to the retry loop. *)
Definition filteredItems (clothingItems : list ClothingItem)
    (occasion weather : option string) : list ClothingItem :=
  let filteredItems :=
    if Js.truthy_string occasion
    then filterByOccasion clothingItems (default "" occasion)
    else clothingItems in
  if Js.truthy_string weather
  then
    let allowed := default [] (weatherMap !! default "" weather) in
    filter (λ item, Js.includes allowed (category item) = true) filteredItems
  else filteredItems.

(** ** The recommendation pipeline *)

Definition outfitTemplate : list (list string) :=
  [ ["T-shirt"; "Shirt"; "Dress"; "Hoodie"; "Jacket"];
    ["Jeans"; "Sweatpants"; "Shorts"; "Skirt"];
    ["Shoes"];
    ["Hat"] ].

(** [outfit.items.map(i => i.uri).sort().join('|')] *)
Definition outfitKey (items : list ClothingItem) : string :=
  Js.join "|" (Js.sort_strings (uri <$> items)).

(** The local variables [recommendations] and [seen]. *)
Record Collected := mkCollected {
  recommendations : list OutfitRecommendation;
  seen : gset string
}.

(** The object pushed on [recommendations]. *)
Definition recommend (this : IntelligentService) (items : list ClothingItem)
    : OutfitRecommendation :=
  let score := calculateOutfitScore this items in
  let style := classifyOutfitStyle items in
  let reason := generateRecommendationReason items score style in
  {| items := items; score := score; reason := reason; style := style |}.

(** One turn of the retry loop, after its test. *)
Definition attempt (this : IntelligentService) (pool : list ClothingItem)
    (requiredCategories : list string) (st : Collected) : Rand Collected :=
  let* outfit := generateSingleOutfitWithRequired pool outfitTemplate requiredCategories in
  if (length outfit <? 2)%nat then ret st
  else
    let key := outfitKey outfit in
    if bool_decide (key ∈ seen st) then ret st
    else ret {| recommendations := recommendations st ++ [recommend this outfit];
                seen := {[key]} ∪ seen st |}.

(** The retry loop. Every turn, whichever branch it takes, adds one to
    [attempts], so the loop is written by recursion on the attempts that
    are left, [numRecommendations * 10 - attempts]. *)
Fixpoint retryLoop (this : IntelligentService) (pool : list ClothingItem)
    (requiredCategories : list string) (numRecommendations : nat)
    (attemptsLeft : nat) (st : Collected) : Rand Collected :=
  match attemptsLeft with
  | O => ret st
  | S attemptsLeft' =>
      if (length (recommendations st) <? numRecommendations)%nat
      then
        let* st' := attempt this pool requiredCategories st in
        retryLoop this pool requiredCategories numRecommendations attemptsLeft' st'
      else ret st
  end.

(** The recommendations in the order of their generation: the array
    [recommendations] when the loop is left. *)
Definition collectRecommendations (this : IntelligentService)
    (clothingItems : list ClothingItem) (numRecommendations : nat)
    (occasion weather : option string) (requiredCategories : list string)
    (src : Source) : list OutfitRecommendation :=
  let pool := filteredItems clothingItems occasion weather in
  recommendations
    (retryLoop this pool requiredCategories numRecommendations
       (numRecommendations * 10) (mkCollected [] ∅) src 0%nat).1.

(** The test "the comparator [(a, b) => key(b) - key(a)] is not
    positive", and its instance in [generateOutfitRecommendations]. *)
Definition descending {A : Type} (key : A → Q) (a b : A) : bool :=
  Qle_bool (key b - key a) 0.

Definition byScore : OutfitRecommendation → OutfitRecommendation → bool :=
  descending score.

Definition generateOutfitRecommendations (this : IntelligentService)
    (clothingItems : list ClothingItem) (numRecommendations : nat)
    (occasion weather : option string) (requiredCategories : list string)
    (src : Source) : list OutfitRecommendation :=
  Js.sort byScore
    (collectRecommendations this clothingItems numRecommendations
       occasion weather requiredCategories src).

(** ** Feedback *)

(** [rateOutfit]; [now] is the value of [Date.now()]. The write to the
    store that follows ([saveUserPreferences]) leaves the instance as it
    is. *)
Definition rateOutfit (this : IntelligentService) (outfitId : string) (rating : Q)
    (now : Z) : IntelligentService :=
  {| outfitRatings := outfitRatings this ++ [mkRating outfitId rating now];
     colorCompatibilityMatrix := colorCompatibilityMatrix this;
     stylePreferences := stylePreferences this |}.

Definition updateStylePreferences (this : IntelligentService) (category : string)
    (preference : Q) : IntelligentService :=
  {| outfitRatings := outfitRatings this;
     colorCompatibilityMatrix := colorCompatibilityMatrix this;
     stylePreferences := <[category := preference]> (stylePreferences this) |}.

(** [loadUserPreferences], given what the store holds under the two keys
    ([None]: the key is absent). *)
Definition loadUserPreferences (this : IntelligentService)
    (ratings : option (list OutfitRating)) (preferences : option (gmap string Q))
    : IntelligentService :=
  {| outfitRatings := default (outfitRatings this) ratings;
     colorCompatibilityMatrix := colorCompatibilityMatrix this;
     stylePreferences := default (stylePreferences this) preferences |}.

(** What a client can do to the stored feedback. *)
Inductive FeedbackAction :=
  | RateOutfit (outfitId : string) (rating : Q) (now : Z)
  | UpdateStylePreferences (category : string) (preference : Q)
  | LoadUserPreferences (ratings : option (list OutfitRating))
      (preferences : option (gmap string Q)).

Definition act (this : IntelligentService) (a : FeedbackAction) : IntelligentService :=
  match a with
  | RateOutfit id r now => rateOutfit this id r now
  | UpdateStylePreferences c p => updateStylePreferences this c p
  | LoadUserPreferences rs ps => loadUserPreferences this rs ps
  end.

Definition afterFeedback (this : IntelligentService) (actions : list FeedbackAction)
    : IntelligentService :=
  foldl act this actions.



(** * Definitions used by the statements *)

#[global] Instance Qeq_decision (x y : Q) : Decision (x == y) := Qeq_dec x y.

(** Items of the examples. *)
Definition tshirtItem : ClothingItem := mkItem "a" "T-shirt" "red".
Definition jeansItem : ClothingItem := mkItem "b" "Jeans" "blue".
Definition shortsItem : ClothingItem := mkItem "c" "Shorts" "white".
Definition dressItem : ClothingItem := mkItem "d" "Dress" "red".
Definition skirtItem : ClothingItem := mkItem "s" "Skirt" "black".
Definition shirtItem : ClothingItem := mkItem "w" "Shirt" "white".
Definition shoesItem : ClothingItem := mkItem "e" "Shoes" "black".
Definition hatItem : ClothingItem := mkItem "h" "Hat" "navy".
Definition firstDress : ClothingItem := mkItem "d1" "Dress" "red".
Definition secondDress : ClothingItem := mkItem "d2" "Dress" "blue".

(** The invariant of the builder: the items come from the pool, no two
    of them share a category, and every category present is recorded as
    used. *)
Definition wellFormed (pool : list ClothingItem) (b : Builder) : Prop :=
  NoDup (category <$> b_items b) ∧
  ∀ x, x ∈ b_items b → x ∈ pool ∧ category x ∈ b_used b.

(** A step of the generator keeps the invariant and only appends. *)
Definition grows (pool : list ClothingItem) (b b' : Builder) : Prop :=
  (wellFormed pool b → wellFormed pool b') ∧ b_items b `prefix_of` b_items b'.

Definition topLayer : list string := layer outfitTemplate 0.
Definition bottomLayer : list string := layer outfitTemplate 1.

(** A set of items that dresses a person: a dress, or a top-layer item
    together with a bottom-layer item. *)
Definition complete (xs : list ClothingItem) : Prop :=
  (∃ x, x ∈ xs ∧ category x = "Dress") ∨
  ((∃ x, x ∈ xs ∧ category x ∈ topLayer) ∧ (∃ y, y ∈ xs ∧ category y ∈ bottomLayer)).

(** The pairs [(i, j)] with [i < j < n], in the order of the two loops
    of the scorer. *)
Definition indexPairs (n : nat) : list (nat * nat) :=
  seq 0 n ≫= λ i, (λ j, (i, j)) <$> seq (S i) (n - S i).

(** The contribution of the pair of positions [p = (i, j)], in the
    specification's words:
    [(colorCompatibility(items[i], items[j])
      + styleCompatibility(items[i], items[j])) / 2]. *)
Definition scoreAt (this : IntelligentService) (items : list ClothingItem)
    (p : nat * nat) : Q :=
  match items !! p.1, items !! p.2 with
  | Some a, Some b =>
      (calculateColorCompatibility this a b + calculateStyleCompatibility a b) / 2
  | _, _ => 0
  end.

Definition Qsum (l : list Q) : Q := foldr Qplus 0 l.

(** The scorer as the specification words it: the arithmetic mean, over
    all pairs of positions [i < j], of
    [(colorCompatibility + styleCompatibility) / 2]. *)
Definition meanPairScore (this : IntelligentService) (items : list ClothingItem) : Q :=
  let pairs := indexPairs (length items) in
  Qsum (scoreAt this items <$> pairs) / inject_Z (Z.of_nat (length pairs)).

(** The arithmetic of [calculateOutfitScore] on a list of two items, in
    binary64: [totalScore] goes from 0 to the half-sum of the two
    scores and is divided by the one comparison. *)
Definition scoreOfOnePairBinary64 (colorScore styleScore : float) : float :=
  ((0 + (colorScore + styleScore) / 2) / 1)%float.

(** The scores of the pairs, by recursion on the list. *)
Fixpoint pairScores (this : IntelligentService) (items : list ClothingItem) : list Q :=
  match items with
  | [] => []
  | x :: after => (pairScore this x <$> after) ++ pairScores this after
  end.

(** * The rest of the service, and the screens that call it *)

(** ** Names that every object inherits *)

(** An object literal inherits the properties of [Object.prototype]: a
    read [obj[k]] with one of these names as [k] finds the inherited
    value and not [undefined]. The dictionaries of this development hold
    own properties only. The properties of this part that read a table
    at a text coming from outside (a colour as typed, a category, an
    occasion, a weather) are therefore stated for the texts that are no
    such name. *)
Definition objectPrototypeNames : list string :=
  ["constructor"; "__proto__"; "hasOwnProperty"; "isPrototypeOf";
   "propertyIsEnumerable"; "toLocaleString"; "toString"; "valueOf";
   "__defineGetter__"; "__defineSetter__"; "__lookupGetter__"; "__lookupSetter__"].

Definition ownKey (k : string) : bool :=
  negb (Js.includes objectPrototypeNames k).

(** The scorer reads its tables at the colour and at the category of an
    item in lower case. *)
Definition plainItem (item : ClothingItem) : bool :=
  ownKey (Js.toLowerCase (color item)) && ownKey (Js.toLowerCase (category item)).

(** The filters read theirs at the occasion and at the weather as given,
    and only when one is given. *)
Definition plainFilter (option : option string) : bool :=
  match option with
  | Some text => ownKey text
  | None => true
  end.

(** The counting loops of the insights read and write their dictionaries
    at the category and at the colour as typed. *)
Definition plainlyKeyed (item : ClothingItem) : bool :=
  ownKey (category item) && ownKey (color item).

(** ** The colour palette of an item *)

Record ColorPalette := mkPalette {
  dominant : string;
  palette : list string;
  brightness : Q;
  saturation : Q
}.

Definition paletteMap : gmap string (list string) :=
  list_to_map [
    ("red", ["red"; "pink"; "white"; "black"]);
    ("blue", ["blue"; "purple"; "white"; "gray"]);
    ("green", ["green"; "brown"; "white"; "black"]);
    ("yellow", ["yellow"; "orange"; "white"; "black"]);
    ("purple", ["purple"; "pink"; "white"; "gray"]);
    ("orange", ["orange"; "yellow"; "white"; "black"]);
    ("pink", ["pink"; "purple"; "white"; "gray"]);
    ("brown", ["brown"; "green"; "white"; "black"]);
    ("black", ["black"; "white"; "gray"; "red"]);
    ("white", ["white"; "black"; "gray"; "blue"]);
    ("gray", ["gray"; "white"; "black"; "blue"])
  ].

(** [getColorPalette]: the value the returned promise resolves to. *)
Definition getColorPalette (item : ClothingItem) : ColorPalette :=
  let color := extractColorFromItem item in
  {| dominant := color;
     palette := default ["gray"; "white"; "black"] (paletteMap !! color);
     brightness := if String.eqb color "white" then 1
                   else if String.eqb color "black" then 0 else 0.5;
     saturation :=
       if Js.includes ["red"; "blue"; "green"; "yellow"; "purple"; "orange"; "pink"] color
       then 0.8 else 0.3 |}.

(** The array [reasons] of [generateRecommendationReason], for a style. *)
Definition reasonTemplates (style : string) : list string :=
  [ "Great " +:+ Js.toLowerCase style +:+ " combination with excellent color harmony";
    "Perfect " +:+ Js.toLowerCase style +:+ " look with complementary colors";
    "Stylish " +:+ Js.toLowerCase style +:+ " outfit with balanced proportions";
    "Classic " +:+ Js.toLowerCase style +:+ " pairing that works for many occasions";
    "Trendy " +:+ Js.toLowerCase style +:+ " combination with modern appeal" ].

(** The ratings a sequence of feedback actions records, in order. *)
Definition ratingsOf (actions : list FeedbackAction) : list OutfitRating :=
  omap (λ a, match a with
             | RateOutfit id r now => Some (mkRating id r now)
             | _ => None
             end) actions.

Definition isLoad (a : FeedbackAction) : bool :=
  match a with LoadUserPreferences _ _ => true | _ => false end.

(** ** The recommendations screen *)

(** [toggleCategory]: the update it applies to [requiredCategories]. *)
Definition toggleCategory (cat : string) (prev : list string) : list string :=
  if Js.includes prev cat then filter (λ c, c ≠ cat) prev else prev ++ [cat].

(** The required categories after a sequence of taps, from the initial
    empty selection. *)
Definition afterToggles (cats : list string) : list string :=
  foldl (λ prev cat, toggleCategory cat prev) [] cats.

(** The options of the two pickers of the screen. *)
Definition OCCASION_OPTIONS : list string :=
  ["All"; "Casual"; "Formal"; "Athletic"; "Business"].
Definition WEATHER_OPTIONS : list string :=
  ["Any"; "Hot"; "Mild"; "Cold"; "Rainy"].

(** [generateRecommendations] of the screen: the list it hands to
    [setRecommendations], or [None] when it returns before calling the
    service and leaves the state as it is. *)
Definition screenRecommendations (service : IntelligentService)
    (clothingItems : list ClothingItem) (selectedOccasion selectedWeather : string)
    (requiredCategories : list string) (src : Source)
    : option (list OutfitRecommendation) :=
  if (length clothingItems <? 2)%nat then None
  else
    let occasion := if String.eqb selectedOccasion "All" then None
                    else Some selectedOccasion in
    let weather := if String.eqb selectedWeather "Any" then None
                   else Some selectedWeather in
    Some (generateOutfitRecommendations service clothingItems 6 occasion weather
            requiredCategories src).

(** The feedback of the screen: the dictionary [feedbackMap] and the
    value [handleLike] and [handleDislike] give it next. *)
Inductive Feedback := Like | Dislike.

Definition handleLike (feedbackMap : gmap string Feedback)
    (recommendation : OutfitRecommendation) : gmap string Feedback :=
  let key := Js.join "|" (Js.sort_strings (uri <$> items recommendation)) in
  <[key := Like]> feedbackMap.

Definition handleDislike (feedbackMap : gmap string Feedback)
    (recommendation : OutfitRecommendation) : gmap string Feedback :=
  let key := Js.join "|" (Js.sort_strings (uri <$> items recommendation)) in
  <[key := Dislike]> feedbackMap.

(** The counting loop of [generateInsights]:
    [counts[key] = (counts[key] || 0) + 1]. The counts are whole
    numbers. *)
Definition countUp (counts : gmap string nat) (key : string) : gmap string nat :=
  <[key := (default 0 (counts !! key) + 1)%nat]> counts.

Definition categoryCounts (clothingItems : list ClothingItem) : gmap string nat :=
  foldl (λ counts item, countUp counts (category item)) ∅ clothingItems.

Definition colorCounts (clothingItems : list ClothingItem) : gmap string nat :=
  foldl (λ counts item, countUp counts (color item)) ∅ clothingItems.

(** [generateRecommendations] of the insights panel;
    [Object.keys(m).length] is the size of the dictionary. *)
Definition wardrobeTips (clothingItems : list ClothingItem)
    (categories colors : gmap string nat) : list string :=
  let recs :=
    (if (size categories <? 5)%nat
     then ["Consider adding more variety to your wardrobe"] else []) ++
    (if (size colors <? 4)%nat
     then ["Try incorporating more colors for versatile outfits"] else []) ++
    (if (length clothingItems <? 10)%nat
     then ["Add more items to get better recommendations"] else []) in
  if (0 <? length recs)%nat then recs else ["Your wardrobe looks well-balanced!"].

(** ** The outfit creator screen *)

Record OutfitSection := mkSection {
  sectionCategory : string;
  sectionIndex : Z
}.

Definition MAX_SECTIONS : nat := 4.

(** The initial value of the state [sections]. *)
Definition initialSections : list OutfitSection :=
  [mkSection "T-shirt" 0; mkSection "Jeans" 0; mkSection "Shoes" 0].

(** [addSection] and [removeSection]: the next value of [sections]. *)
Definition addSection (sections : list OutfitSection) : list OutfitSection :=
  if (length sections <? MAX_SECTIONS)%nat
  then sections ++ [mkSection "T-shirt" 0]
  else sections.

Definition removeSection (sections : list OutfitSection) (idx : nat)
    : list OutfitSection :=
  if (1 <? length sections)%nat then delete idx sections else sections.

(** [updateSectionIndex]: the next value of [sections]; [None] when
    [sections[idx]] is [undefined] and the read of its category throws.
    The JavaScript [%] takes the sign of the dividend ([Z.rem]). *)
Definition updateSectionIndex (clothingItems : list ClothingItem)
    (sections : list OutfitSection) (idx : nat) (direction : Z)
    : option (list OutfitSection) :=
  match sections !! idx with
  | None => None
  | Some section =>
      let items := hasCategory (sectionCategory section) clothingItems in
      if (length items =? 0)%nat then Some sections
      else
        let len := Z.of_nat (length items) in
        let currentIndex := Z.min (sectionIndex section) (len - 1) in
        Some (<[idx := mkSection (sectionCategory section)
                         (Z.rem (currentIndex + direction + len) len)]> sections)
  end.

(** The item a section shows and [handleSaveOutfit] stores:
    [itemsForCat[Math.min(section.index, itemsForCat.length - 1)]], or
    [null] ([None]) when the wardrobe has no item of the category. *)
Definition shownItem (clothingItems : list ClothingItem) (section : OutfitSection)
    : option ClothingItem :=
  let itemsForCat := hasCategory (sectionCategory section) clothingItems in
  let currentIndex := Z.min (sectionIndex section) (Z.of_nat (length itemsForCat) - 1) in
  if (0 <? length itemsForCat)%nat then Js.index itemsForCat currentIndex else None.

(** Every category recorded as used is the category of an item of the
    candidate; a step of the generator keeps this and forgets no used
    category. *)
Definition covered (b : Builder) : Prop :=
  ∀ c, c ∈ b_used b → ∃ x, x ∈ b_items b ∧ category x = c.

Definition keeps (b b' : Builder) : Prop :=
  (covered b → covered b') ∧ b_used b ⊆ b_used b'.

#[global] Instance Qle_decision (x y : Q) : Decision (x <= y).
Proof.
  destruct (Qlt_le_dec y x) as [H|H]; [right | left; exact H].
  intros H'. exact (Qlt_not_le _ _ H H').
Defined.

(** * Properties *)

#[local] Arguments push : simpl never.
#[local] Arguments pick : simpl never.

(** ** Executions on concrete inputs *)

Example toLowerCase_mixed : Js.toLowerCase "T-Shirt" = "t-shirt".
Proof. reflexivity. Qed.

Example extractColor_synonym :
  extractColorFromItem hatItem = "blue" ∧
  extractColorFromItem (mkItem "x" "Hat" "Turquoise") = "gray".
Proof. split; reflexivity. Qed.

Example outfitKey_sorted : outfitKey [jeansItem; tshirtItem] = "a|b".
Proof. reflexivity. Qed.

Example sort_is_stable :
  Js.sort (descending (λ p : Q * string, p.1))
    [(0.5, "first"); (0.8, "second"); (0.5, "third"); (0.8, "fourth")]
  = [(0.8, "second"); (0.8, "fourth"); (0.5, "first"); (0.5, "third")].
Proof. reflexivity. Qed.

(** A dress with shoes and a hat: the draws 0.9 pass the three
    thresholds, the draws 0 choose the first candidate. *)
Example dress_with_accessories :
  (λ r, (items r, Qred (score r), style r)) <$>
    generateOutfitRecommendations newService
      [dressItem; shoesItem; jeansItem; hatItem] 3 None None []
      (alternate draw_high draw_zero)
  = [([dressItem; shoesItem; hatItem], 2 # 3, "Elegant")].
Proof. vm_compute. reflexivity. Qed.

(** Two tops and one bottom: the first attempt draws the T-shirt, the
    second the shirt, which scores higher and is returned first. *)
Example two_recommendations_sorted :
  (λ r, (items r, Qred (score r))) <$>
    collectRecommendations newService [tshirtItem; shirtItem; jeansItem] 2
      None None [] (switch_at 2 draw_zero draw_high)
  = [([tshirtItem; jeansItem], 4 # 5); ([shirtItem; jeansItem], 17 # 20)] ∧
  (λ r, (items r, Qred (score r))) <$>
    generateOutfitRecommendations newService [tshirtItem; shirtItem; jeansItem] 2
      None None [] (switch_at 2 draw_zero draw_high)
  = [([shirtItem; jeansItem], 17 # 20); ([tshirtItem; jeansItem], 4 # 5)].
Proof. split; vm_compute; reflexivity. Qed.

(** Without a top in the pool a candidate of two items has none, with
    or without filters. *)
Example jeans_and_shoes_only :
  items <$> generateOutfitRecommendations newService [jeansItem; shoesItem] 1
              None None [] (always draw_high)
  = [[jeansItem; shoesItem]].
Proof. vm_compute. reflexivity. Qed.

(** ** The sort *)

Section SortFacts.
Context {A : Type} (key : A → Q).

Lemma descending_true a b : descending key a b = true ↔ key b <= key a.
Proof. unfold descending. rewrite Qle_bool_iff. split; intros; lra. Qed.

Lemma descending_false a b : descending key a b = false → key a < key b.
Proof.
  intros H. destruct (Qlt_le_dec (key a) (key b)) as [|Hle]; [done |].
  apply descending_true in Hle. congruence.
Qed.

Lemma insert_sorted_Permutation x (l : list A) :
  Js.insert_sorted (descending key) x l ≡ₚ x :: l.
Proof.
  induction l as [|y l IH]; simpl; [done |].
  destruct (descending key x y); [done |].
  rewrite IH. apply Permutation_swap.
Qed.

Lemma sort_Permutation (l : list A) : Js.sort (descending key) l ≡ₚ l.
Proof.
  induction l as [|x l IH]; simpl; [done |].
  by rewrite insert_sorted_Permutation, IH.
Qed.

Lemma insert_sorted_StronglySorted x (l : list A) :
  StronglySorted (λ a b, key b <= key a) l →
  StronglySorted (λ a b, key b <= key a) (Js.insert_sorted (descending key) x l).
Proof.
  induction 1 as [|y l Hl IH Hy]; simpl.
  - repeat constructor.
  - destruct (descending key x y) eqn:Hxy.
    + apply descending_true in Hxy.
      constructor; [by constructor |].
      constructor; [done |].
      eapply Forall_impl; [exact Hy |]. simpl. intros z Hz. lra.
    + apply descending_false in Hxy.
      constructor; [done |].
      rewrite insert_sorted_Permutation.
      constructor; [lra | done].
Qed.

Lemma sort_StronglySorted (l : list A) :
  StronglySorted (λ a b, key b <= key a) (Js.sort (descending key) l).
Proof.
  induction l as [|x l IH]; simpl; [constructor |].
  by apply insert_sorted_StronglySorted.
Qed.

(** Stability: the entries of any one key value come out in the order
    they went in. *)
Lemma insert_sorted_filter q x (l : list A) :
  filter (λ a, key a == q) (Js.insert_sorted (descending key) x l)
  = filter (λ a, key a == q) (x :: l).
Proof.
  induction l as [|y l IH]; simpl; [done |].
  destruct (descending key x y) eqn:Hxy; [done |].
  apply descending_false in Hxy.
  rewrite (filter_cons _ y (Js.insert_sorted _ _ _)), IH.
  rewrite !filter_cons.
  destruct (decide (key x == q)) as [Hx|Hx];
    destruct (decide (key y == q)) as [Hy|Hy]; try done.
  rewrite Hx, Hy in Hxy. by apply Qlt_irrefl in Hxy.
Qed.

Lemma sort_filter q (l : list A) :
  filter (λ a, key a == q) (Js.sort (descending key) l)
  = filter (λ a, key a == q) l.
Proof.
  induction l as [|x l IH]; simpl; [done |].
  rewrite insert_sorted_filter, !filter_cons, IH. done.
Qed.

End SortFacts.

(** ** The tables *)

Lemma elem_of_colors (P : string → Prop) :
  P "red" → P "blue" → P "green" → P "yellow" → P "purple" → P "orange" →
  P "pink" → P "brown" → P "black" → P "white" → P "gray" →
  ∀ c, c ∈ colors → P c.
Proof.
  intros ??????????? c Hc. unfold colors in Hc.
  repeat (apply elem_of_cons in Hc as [-> | Hc]; [assumption |]).
  by apply elem_of_nil in Hc.
Qed.

(** C9. The matrix the constructor builds is symmetric on the eleven
    canonical colours, every entry being defined, and its diagonal is
    1.0. *)
Theorem C9_matrix_symmetric_unit_diagonal (a b : string) :
  a ∈ colors → b ∈ colors →
  let m := colorCompatibilityMatrix newService in
  is_Some (lookup2 m a b) ∧
  lookup2 m a b = lookup2 m b a ∧
  lookup2 m a a = Some 1.0.
Proof.
  intros Ha Hb. revert b Hb. revert a Ha.
  apply (elem_of_colors (λ a, ∀ b, b ∈ colors → _));
    apply elem_of_colors; vm_compute; (split; [eexists; reflexivity | split; reflexivity]).
Qed.

Lemma C9_witness :
  "red" ∈ colors ∧ "gray" ∈ colors ∧
  lookup2 (colorCompatibilityMatrix newService) "red" "gray" = Some 0.7 ∧
  lookup2 (colorCompatibilityMatrix newService) "gray" "red" = Some 0.7.
Proof.
  assert (Hr : "red" ∈ colors) by (apply (bool_decide_unpack _); vm_compute; exact I).
  assert (Hg : "gray" ∈ colors) by (apply (bool_decide_unpack _); vm_compute; exact I).
  destruct (C9_matrix_symmetric_unit_diagonal "red" "gray" Hr Hg) as (_ & Hsym & _).
  split; [exact Hr | split; [exact Hg |]].
  split; [reflexivity | rewrite <- Hsym; reflexivity].
Defined.

(** C5, as the specification states it, fails: from a dress to a skirt
    and from a skirt to a dress the table gives the same value. *)
Lemma C5_counterexample :
  ¬ ¬ (calculateStyleCompatibility dressItem skirtItem
       == calculateStyleCompatibility skirtItem dressItem).
Proof. intros H. apply H. reflexivity. Qed.

(** C5, amended. For a dress and a skirt the authored table does not
    depend on the direction: both orders give 0.6. The table is
    direction-sensitive elsewhere: a T-shirt followed by shorts gives
    0.8, shorts followed by a T-shirt fall back to the default 0.5. *)
Theorem C5_dress_skirt_same_both_ways (a b : ClothingItem) :
  Js.toLowerCase (category a) = "dress" →
  Js.toLowerCase (category b) = "skirt" →
  calculateStyleCompatibility a b = 0.6 ∧
  calculateStyleCompatibility b a = 0.6 ∧
  calculateStyleCompatibility tshirtItem shortsItem = 0.8 ∧
  calculateStyleCompatibility shortsItem tshirtItem = 0.5.
Proof.
  intros Ha Hb. unfold calculateStyleCompatibility.
  rewrite Ha, Hb. repeat split; reflexivity.
Qed.

Lemma C5_witness :
  calculateStyleCompatibility dressItem skirtItem = 0.6 ∧
  calculateStyleCompatibility skirtItem dressItem = 0.6.
Proof.
  destruct (C5_dress_skirt_same_both_ways dressItem skirtItem eq_refl eq_refl)
    as (H1 & H2 & _).
  split; [exact H1 | exact H2].
Defined.

(** ** The random source stays in range *)

Lemma draw_val_range (r : Draw) : 0 <= draw_val r ∧ draw_val r < 1.
Proof.
  pose proof (draw_ok r) as H. unfold in_unit_interval in H.
  apply andb_prop in H as [H0 H1]. apply Qle_bool_iff in H0.
  split; [done |].
  destruct (Qlt_le_dec (draw_val r) 1) as [|Hle]; [done |].
  apply Qle_bool_iff in Hle. rewrite Hle in H1. done.
Qed.

(** [Math.floor(Math.random() * len)] is an index of an array of [len]
    elements. *)
Lemma randomIndex_lt (r : Draw) (len : nat) :
  (0 < len)%nat → (randomIndex r len < len)%nat.
Proof.
  intros Hlen. unfold randomIndex.
  destruct (draw_val_range r) as [H0 H1].
  set (n := inject_Z (Z.of_nat len)).
  assert (Hn : 0 < n).
  { unfold n. replace 0 with (inject_Z 0) by done. rewrite <- Zlt_Qlt. lia. }
  assert (Hlo : (0 ≤ Qfloor (draw_val r * n))%Z).
  { rewrite <- (Qfloor_Z 0). apply Qfloor_resp_le.
    change (inject_Z 0) with 0.
    apply Qmult_le_0_compat; [done | by apply Qlt_le_weak]. }
  assert (Hhi : (Qfloor (draw_val r * n) < Z.of_nat len)%Z).
  { rewrite Zlt_Qlt. fold n.
    eapply Qle_lt_trans; [apply Qfloor_le |].
    assert (H : draw_val r * n < 1 * n) by (by apply Qmult_lt_compat_r).
    lra. }
  lia.
Qed.

Lemma pick_elem_of {A : Type} (x0 : A) (xs : list A) (src : Source) (k : nat) :
  xs ≠ [] → (pick x0 xs src k).1 ∈ xs.
Proof.
  intros Hxs. unfold pick, Random.bind, random, ret. simpl.
  apply list_elem_of_In, nth_In, randomIndex_lt.
  destruct xs; [done | simpl; lia].
Qed.

Lemma bind_run {A B : Type} (m : Rand A) (f : A → Rand B) (src : Source) (k : nat) :
  Random.bind m f src k = f (m src k).1 src (m src k).2.
Proof. unfold Random.bind. by destruct (m src k). Qed.

Lemma pick_singleton {A : Type} (x : A) (src : Source) (k : nat) :
  pick x [x] src k = (x, S k).
Proof.
  unfold pick, Random.bind, random, ret. f_equal.
  by destruct (randomIndex (src k) (length [x])) as [|[|?]].
Qed.

(** ** What every generated candidate satisfies *)

Lemma elem_of_hasCategory cat pool x :
  x ∈ hasCategory cat pool ↔ category x = cat ∧ x ∈ pool.
Proof. unfold hasCategory. by rewrite list_elem_of_filter. Qed.

Lemma elem_of_inLayer row pool x :
  x ∈ inLayer row pool ↔ category x ∈ row ∧ x ∈ pool.
Proof.
  unfold inLayer, Js.includes. rewrite list_elem_of_filter.
  by rewrite bool_decide_eq_true.
Qed.

Section Generator.
Context (pool : list ClothingItem).

Lemma wellFormed_empty : wellFormed pool (mkBuilder [] ∅).
Proof. split; simpl; [constructor | intros x Hx; by apply elem_of_nil in Hx]. Qed.

Lemma wellFormed_push x cat b :
  wellFormed pool b → x ∈ pool → category x = cat → cat ∉ b_used b →
  wellFormed pool (push x cat b).
Proof.
  intros [Hnd Hin] Hx Hcat Hfresh. unfold push. split; simpl.
  - rewrite fmap_app. apply NoDup_app. split; [done |]. split.
    + intros c Hc Hc'. apply list_elem_of_fmap in Hc as (y & -> & Hy).
      apply list_elem_of_singleton in Hc'.
      apply Hin in Hy as [_ Hy]. congruence.
    + apply NoDup_singleton.
  - intros y Hy. apply elem_of_app in Hy as [Hy | Hy].
    + apply Hin in Hy as [? Hused]. split; [done |].
      apply elem_of_union. by right.
    + apply list_elem_of_singleton in Hy as ->. split; [done |].
      apply elem_of_union. left. by apply elem_of_singleton.
Qed.

Lemma grows_refl b : grows pool b b.
Proof. by split. Qed.

Lemma grows_trans b1 b2 b3 : grows pool b1 b2 → grows pool b2 b3 → grows pool b1 b3.
Proof. intros [??] [??]. split; [auto | by etrans]. Qed.

Lemma grows_push x cat b :
  x ∈ hasCategory cat pool → cat ∉ b_used b → grows pool b (push x cat b).
Proof.
  intros [Hcat Hx]%elem_of_hasCategory Hfresh. split.
  - intros Hb. by apply wellFormed_push.
  - by apply prefix_app_r.
Qed.

Lemma addRequired_grows cat b src k :
  grows pool b (addRequired pool cat b src k).1.
Proof.
  unfold addRequired. case_bool_decide as Hused; [apply grows_refl |].
  destruct (hasCategory cat pool) as [|x0 xs] eqn:Hcands; [apply grows_refl |].
  rewrite bind_run. unfold ret. cbn [fst].
  apply grows_push; [| done].
  rewrite Hcands. by apply pick_elem_of.
Qed.

Lemma addAllRequired_grows requiredCategories b src k :
  grows pool b (addAllRequired pool requiredCategories b src k).1.
Proof.
  revert b k. induction requiredCategories as [|cat rest IH]; intros b k; simpl.
  - apply grows_refl.
  - rewrite bind_run.
    eapply grows_trans; [apply addRequired_grows | apply IH].
Qed.

Lemma addAccessory_grows cat threshold b src k :
  grows pool b (addAccessory pool cat threshold b src k).1.
Proof.
  unfold addAccessory.
  destruct (hasCategory cat pool) as [|x0 xs] eqn:Hcands; [apply grows_refl |].
  rewrite bind_run.
  destruct (negb (Qle_bool (draw_val (random src k).1) threshold));
    [| apply grows_refl].
  case_bool_decide as Hused; [apply grows_refl |].
  cbn [negb andb]. rewrite bind_run. unfold ret. cbn [fst].
  apply grows_push; [| done].
  rewrite Hcands. by apply pick_elem_of.
Qed.

(** Strategy 2, for a layer none of whose categories is in use. *)
Lemma addFromLayer_spec row b src k :
  wellFormed pool b → (∀ c, c ∈ row → c ∉ b_used b) →
  let b' := (addFromLayer pool row b src k).1 in
  wellFormed pool b' ∧
  (∀ c, c ∈ b_used b' → c ∈ b_used b ∨ c ∈ row) ∧
  match inLayer row pool with
  | [] => b_items b' = b_items b
  | _ => ∃ x, b_items b' = b_items b ++ [x] ∧ category x ∈ row
  end.
Proof.
  intros Hb Hfresh. unfold addFromLayer.
  destruct (inLayer row pool) as [|x0 xs] eqn:Hlayer; [by auto |].
  rewrite bind_run. unfold ret. cbn [fst].
  set (x := (pick x0 (x0 :: xs) src k).1).
  assert (Hx : x ∈ inLayer row pool).
  { rewrite Hlayer. by apply pick_elem_of. }
  apply elem_of_inLayer in Hx as [Hrow Hx].
  split; [apply wellFormed_push; auto |].
  split; [| by exists x].
  unfold push. simpl. intros c [Hc | Hc]%elem_of_union; [| by left].
  apply elem_of_singleton in Hc as ->. by right.
Qed.

(** The base of a candidate, for a template whose first two rows share
    no category. *)
Section Base.
Context (template : list (list string)).
Hypothesis rows_disjoint :
  ∀ c, c ∈ layer template 0 → c ∉ layer template 1.

Lemma chooseBase_dress i dress src k :
  list_find (λ item, category item = "Dress") pool = Some (i, dress) →
  chooseBase pool template src k = (mkBuilder [dress] {["Dress"]}, k).
Proof.
  intros H. unfold chooseBase. rewrite H. unfold ret, push. simpl.
  by rewrite union_empty_r_L.
Qed.

Lemma chooseBase_separates src k :
  list_find (λ item, category item = "Dress") pool = None →
  let b := (chooseBase pool template src k).1 in
  wellFormed pool b ∧
  (inLayer (layer template 0) pool ≠ [] →
   inLayer (layer template 1) pool ≠ [] →
   ∃ top bottom, b_items b = [top; bottom] ∧
     category top ∈ layer template 0 ∧ category bottom ∈ layer template 1).
Proof.
  intros H. unfold chooseBase. rewrite H, bind_run.
  pose proof (addFromLayer_spec (layer template 0) (mkBuilder [] ∅) src k
                wellFormed_empty) as H1.
  destruct (addFromLayer pool (layer template 0) (mkBuilder [] ∅) src k)
    as [b1 k1]. simpl in H1. cbn [fst snd].
  destruct H1 as (Hb1 & Hused1 & Hitems1).
  { intros c _ Hc. by apply elem_of_empty in Hc. }
  pose proof (addFromLayer_spec (layer template 1) b1 src k1 Hb1) as H2.
  destruct (addFromLayer pool (layer template 1) b1 src k1) as [b2 k2].
  simpl in H2. cbn [fst].
  destruct H2 as (Hb2 & _ & Hitems2).
  { intros c Hc Hc'. apply Hused1 in Hc' as [Hc' | Hc'].
    - by apply elem_of_empty in Hc'.
    - by apply (rows_disjoint c). }
  split; [done |]. intros Htops Hbottoms.
  destruct (inLayer (layer template 0) pool); [done |].
  destruct (inLayer (layer template 1) pool); [done |].
  destruct Hitems1 as (top & Hi1 & Htop).
  destruct Hitems2 as (bottom & Hi2 & Hbottom).
  exists top, bottom. rewrite Hi2, Hi1. done.
Qed.

Lemma chooseBase_wellFormed src k :
  wellFormed pool (chooseBase pool template src k).1.
Proof.
  destruct (list_find (λ item, category item = "Dress") pool)
    as [[i dress]|] eqn:Hfind.
  - rewrite (chooseBase_dress i dress src k Hfind).
    apply list_find_Some in Hfind as (Hi & Hcat & _).
    split; simpl.
    + apply NoDup_singleton.
    + intros x Hx. apply list_elem_of_singleton in Hx as ->.
      split; [by eapply list_elem_of_lookup_2 |].
      rewrite Hcat. by apply elem_of_singleton.
  - by apply chooseBase_separates.
Qed.

(** The candidate extends its base, has no two items of one category,
    and is drawn from the pool. *)
Lemma generateSingleOutfitWithRequired_spec requiredCategories src k :
  let outfit := (generateSingleOutfitWithRequired pool template
                   requiredCategories src k).1 in
  b_items (chooseBase pool template src k).1 `prefix_of` outfit ∧
  NoDup (category <$> outfit) ∧
  ∀ x, x ∈ outfit → x ∈ pool.
Proof.
  unfold generateSingleOutfitWithRequired.
  rewrite !bind_run. unfold ret. cbn [fst].
  pose proof (chooseBase_wellFormed src k) as H0.
  set (r0 := chooseBase pool template src k) in *.
  pose proof (addAllRequired_grows requiredCategories r0.1 src r0.2) as H1.
  set (r1 := addAllRequired pool requiredCategories r0.1 src r0.2) in *.
  pose proof (addAccessory_grows "Shoes" 0.3 r1.1 src r1.2) as H2.
  set (r2 := addAccessory pool "Shoes" 0.3 r1.1 src r1.2) in *.
  pose proof (addAccessory_grows "Hat" 0.5 r2.1 src r2.2) as H3.
  set (r3 := addAccessory pool "Hat" 0.5 r2.1 src r2.2) in *.
  pose proof (addAccessory_grows "Other" 0.7 r3.1 src r3.2) as H4.
  set (r4 := addAccessory pool "Other" 0.7 r3.1 src r3.2) in *.
  destruct (grows_trans _ _ _ (grows_trans _ _ _ H1 H2) (grows_trans _ _ _ H3 H4))
    as [Hwf Hpre].
  destruct (Hwf H0) as [Hnd Hin].
  split; [done |]. split; [done |]. intros x Hx. by apply Hin.
Qed.

End Base.
End Generator.

Lemma outfitTemplate_rows_disjoint :
  ∀ c, c ∈ layer outfitTemplate 0 → c ∉ layer outfitTemplate 1.
Proof.
  intros c H0 H1. simpl in *.
  repeat (apply elem_of_cons in H0 as [-> | H0];
          [by repeat (apply elem_of_cons in H1 as [? | H1]; [done |]);
              apply elem_of_nil in H1 |]).
  by apply elem_of_nil in H0.
Qed.

(** A candidate is never longer than the pool it is drawn from. *)
Lemma generateSingleOutfitWithRequired_length pool requiredCategories src k :
  (length (generateSingleOutfitWithRequired pool outfitTemplate
             requiredCategories src k).1 ≤ length pool)%nat.
Proof.
  destruct (generateSingleOutfitWithRequired_spec pool outfitTemplate
              outfitTemplate_rows_disjoint requiredCategories src k)
    as (_ & Hnd & Hpool).
  apply submseteq_length, NoDup_submseteq; [| done].
  by apply NoDup_fmap_1 in Hnd.
Qed.

(** When the pool holds a dress, its first dress opens the candidate. *)
Lemma first_dress_opens_candidate pool i dress requiredCategories src k :
  list_find (λ item, category item = "Dress") pool = Some (i, dress) →
  head (generateSingleOutfitWithRequired pool outfitTemplate
          requiredCategories src k).1 = Some dress.
Proof.
  intros Hfind.
  destruct (generateSingleOutfitWithRequired_spec pool outfitTemplate
              outfitTemplate_rows_disjoint requiredCategories src k)
    as ([rest Hrest] & _).
  rewrite (chooseBase_dress pool outfitTemplate i dress src k Hfind) in Hrest.
  simpl in Hrest. by rewrite Hrest.
Qed.

(** C4, amended. When the pool holds a dress, the base of the candidate
    is the first dress of the pool, in the order of the pool, whatever
    the draws: no draw is taken for it, and the dress opens the
    candidate. *)
Theorem C4_base_is_first_dress pool i dress requiredCategories src k :
  list_find (λ item, category item = "Dress") pool = Some (i, dress) →
  chooseBase pool outfitTemplate src k = (mkBuilder [dress] {["Dress"]}, k) ∧
  head (generateSingleOutfitWithRequired pool outfitTemplate
          requiredCategories src k).1 = Some dress.
Proof.
  intros Hfind. split.
  - by apply (chooseBase_dress pool outfitTemplate i).
  - by apply (first_dress_opens_candidate pool i).
Qed.

Lemma C4_witness :
  head (generateSingleOutfitWithRequired [jeansItem; firstDress; secondDress]
          outfitTemplate [] (always draw_high) 0%nat).1 = Some firstDress.
Proof.
  apply (C4_base_is_first_dress [jeansItem; firstDress; secondDress] 1%nat firstDress
           [] (always draw_high) 0%nat).
  reflexivity.
Defined.

(** C4, as the specification states it, fails: in the pool of two
    dresses no draw makes the second dress the base. *)
Lemma C4_counterexample :
  ¬ (∀ dress, dress ∈ [firstDress; secondDress] → category dress = "Dress" →
       ∃ requiredCategories src k,
         head (generateSingleOutfitWithRequired [firstDress; secondDress]
                 outfitTemplate requiredCategories src k).1 = Some dress).
Proof.
  intros H.
  destruct (H secondDress) as (requiredCategories & src & k & Hhead).
  - apply elem_of_cons. right. apply elem_of_cons. by left.
  - reflexivity.
  - rewrite (first_dress_opens_candidate [firstDress; secondDress] 0%nat firstDress
               requiredCategories src k eq_refl) in Hhead.
    discriminate Hhead.
Qed.

(** ** The retry loop *)

Lemma attempt_cases this pool requiredCategories st src k :
  let outfit := (generateSingleOutfitWithRequired pool outfitTemplate
                   requiredCategories src k).1 in
  let st' := (attempt this pool requiredCategories st src k).1 in
  st' = st ∨
  ((2 ≤ length outfit)%nat ∧ (outfitKey outfit ∉ seen st) ∧
   recommendations st' = recommendations st ++ [recommend this outfit] ∧
   seen st' = {[outfitKey outfit]} ∪ seen st).
Proof.
  unfold attempt. rewrite bind_run.
  destruct (length _ <? 2)%nat eqn:Hlen; [by left |].
  apply Nat.ltb_ge in Hlen.
  case_bool_decide as Hseen; [by left |].
  right. done.
Qed.

Lemma retryLoop_step this pool requiredCategories numRecommendations n st :
  retryLoop this pool requiredCategories numRecommendations (S n) st
  = if (length (recommendations st) <? numRecommendations)%nat
    then Random.bind (attempt this pool requiredCategories st)
           (retryLoop this pool requiredCategories numRecommendations n)
    else ret st.
Proof. reflexivity. Qed.

Lemma retryLoop_Forall (P : OutfitRecommendation → Prop) this pool
    requiredCategories numRecommendations :
  (∀ src k,
     let outfit := (generateSingleOutfitWithRequired pool outfitTemplate
                      requiredCategories src k).1 in
     (2 ≤ length outfit)%nat → P (recommend this outfit)) →
  ∀ attemptsLeft st src k,
    Forall P (recommendations st) →
    Forall P (recommendations
      (retryLoop this pool requiredCategories numRecommendations
         attemptsLeft st src k).1).
Proof.
  intros HP. induction attemptsLeft as [|n IH]; intros st src k Hst; [done |].
  rewrite retryLoop_step.
  destruct (length (recommendations st) <? numRecommendations)%nat; [| done].
  rewrite bind_run. apply IH.
  destruct (attempt_cases this pool requiredCategories st src k)
    as [-> | (Hlen & _ & -> & _)]; [done |].
  apply Forall_app. split; [done |]. constructor; [by apply HP | constructor].
Qed.

Lemma retryLoop_length this pool requiredCategories numRecommendations :
  ∀ attemptsLeft st src k,
    (length (recommendations st) ≤ numRecommendations)%nat →
    (length (recommendations
       (retryLoop this pool requiredCategories numRecommendations
          attemptsLeft st src k).1) ≤ numRecommendations)%nat.
Proof.
  induction attemptsLeft as [|n IH]; intros st src k Hst; [done |].
  rewrite retryLoop_step.
  destruct (length (recommendations st) <? numRecommendations)%nat eqn:Hlt; [| done].
  apply Nat.ltb_lt in Hlt.
  rewrite bind_run. apply IH.
  destruct (attempt_cases this pool requiredCategories st src k)
    as [-> | (_ & _ & -> & _)]; [done |].
  rewrite length_app. simpl. lia.
Qed.

(** Once the key of the only candidate has been seen, the loop changes
    nothing. *)
Lemma retryLoop_exhausted this pool requiredCategories numRecommendations outfit :
  (∀ src k, (generateSingleOutfitWithRequired pool outfitTemplate
               requiredCategories src k).1 = outfit) →
  ∀ attemptsLeft st src k,
    outfitKey outfit ∈ seen st →
    (retryLoop this pool requiredCategories numRecommendations
       attemptsLeft st src k).1 = st.
Proof.
  intros Hgen. induction attemptsLeft as [|n IH]; intros st src k Hseen; [done |].
  rewrite retryLoop_step.
  destruct (length (recommendations st) <? numRecommendations)%nat; [| done].
  rewrite bind_run.
  destruct (attempt_cases this pool requiredCategories st src k)
    as [Hst | (_ & Hfresh & _)].
  - rewrite Hst. by apply IH.
  - rewrite Hgen in Hfresh. done.
Qed.

(** What holds of every candidate of two items or more holds of every
    recommendation returned. *)
Lemma generateOutfitRecommendations_Forall (P : OutfitRecommendation → Prop)
    this clothingItems numRecommendations occasion weather requiredCategories :
  (∀ src k,
     let outfit := (generateSingleOutfitWithRequired
                      (filteredItems clothingItems occasion weather)
                      outfitTemplate requiredCategories src k).1 in
     (2 ≤ length outfit)%nat → P (recommend this outfit)) →
  ∀ src,
    Forall P (generateOutfitRecommendations this clothingItems numRecommendations
                occasion weather requiredCategories src).
Proof.
  intros HP src. unfold generateOutfitRecommendations, byScore.
  rewrite (sort_Permutation score). unfold collectRecommendations.
  by apply retryLoop_Forall.
Qed.

(** C10. Every recommendation returned has at least two items, whatever
    the wardrobe, the filters, the required categories and the draws. *)
Theorem C10_at_least_two_items this clothingItems numRecommendations
    occasion weather requiredCategories src :
  Forall (λ r, (2 ≤ length (items r))%nat)
    (generateOutfitRecommendations this clothingItems numRecommendations
       occasion weather requiredCategories src).
Proof. apply generateOutfitRecommendations_Forall. intros src' k outfit Hlen. done. Qed.

(** What holds of every recommendation returned: a non-empty list of
    items without repetition (no two of them even share a category),
    which dresses a person (a dress, or a top-layer and a bottom-layer
    item) whenever the pool left by the filters can. *)
Lemma returned_outfit_invariant this clothingItems numRecommendations
    occasion weather requiredCategories src :
  Forall (λ r,
      items r ≠ [] ∧ NoDup (items r) ∧ NoDup (category <$> items r) ∧
      (complete (filteredItems clothingItems occasion weather) → complete (items r)))
    (generateOutfitRecommendations this clothingItems numRecommendations
       occasion weather requiredCategories src).
Proof.
  apply generateOutfitRecommendations_Forall. clear src.
  intros src k outfit Hlen.
  set (pool := filteredItems clothingItems occasion weather) in *.
  destruct (generateSingleOutfitWithRequired_spec pool outfitTemplate
              outfitTemplate_rows_disjoint requiredCategories src k)
    as (Hbase & Hnd & Hpool).
  fold outfit in Hbase, Hnd, Hpool. simpl.
  split; [intros Hnil; rewrite Hnil in Hlen; simpl in Hlen; lia |].
  split; [by apply NoDup_fmap_1 in Hnd |].
  split; [done |].
  intros Hcomplete.
  destruct (list_find (λ item, category item = "Dress") pool)
    as [[i dress]|] eqn:Hfind.
  - rewrite (chooseBase_dress pool outfitTemplate i dress src k Hfind) in Hbase.
    apply list_find_Some in Hfind as (_ & Hcat & _).
    left. exists dress. split; [| done].
    destruct Hbase as [rest ->]. apply elem_of_app. left. repeat constructor.
  - destruct Hcomplete as [(x & Hx & Hcat) | [(x & Hx & Hx') (y & Hy & Hy')]].
    { apply list_find_None in Hfind. rewrite Forall_forall in Hfind.
      by apply Hfind in Hx. }
    destruct (chooseBase_separates pool outfitTemplate outfitTemplate_rows_disjoint
                src k Hfind) as [_ Hsep].
    destruct Hsep as (top & bottom & Hitems & Htop & Hbottom).
    { intros Hnil. assert (H : x ∈ inLayer (layer outfitTemplate 0) pool)
        by by apply elem_of_inLayer. rewrite Hnil in H. by apply elem_of_nil in H. }
    { intros Hnil. assert (H : y ∈ inLayer (layer outfitTemplate 1) pool)
        by by apply elem_of_inLayer. rewrite Hnil in H. by apply elem_of_nil in H. }
    rewrite Hitems in Hbase. destruct Hbase as [rest Hrest].
    right. split; [exists top | exists bottom]; (split; [| done]);
      rewrite Hrest; apply elem_of_app; left; repeat constructor.
Qed.

(** C3. The list returned has at most [numRecommendations] entries, it
    is a rearrangement of the recommendations generated, sorted by score
    from the highest down, and the entries of any one score come in the
    order of their generation. *)
Theorem C3_bounded_sorted_stable this clothingItems numRecommendations
    occasion weather requiredCategories src :
  let generated := collectRecommendations this clothingItems numRecommendations
                     occasion weather requiredCategories src in
  let result := generateOutfitRecommendations this clothingItems numRecommendations
                  occasion weather requiredCategories src in
  (length result ≤ numRecommendations)%nat ∧
  StronglySorted (λ a b, score b <= score a) result ∧
  result ≡ₚ generated ∧
  ∀ q, filter (λ r, score r == q) result = filter (λ r, score r == q) generated.
Proof.
  intros generated result. unfold result, generateOutfitRecommendations, byScore.
  fold generated. split; [| split; [| split]].
  - rewrite (sort_Permutation score). unfold generated, collectRecommendations.
    apply retryLoop_length. simpl. lia.
  - apply (sort_StronglySorted score).
  - apply (sort_Permutation score).
  - intros q. apply (sort_filter score).
Qed.

(** ** Small wardrobes *)






(** ** The T-shirt and jeans example *)

Lemma generate_tshirt_jeans src k :
  generateSingleOutfitWithRequired [tshirtItem; jeansItem] outfitTemplate [] src k
  = ([tshirtItem; jeansItem], S (S k)).
Proof.
  unfold generateSingleOutfitWithRequired, chooseBase.
  change (list_find _ [tshirtItem; jeansItem]) with (@None (nat * ClothingItem)).
  unfold addFromLayer.
  change (inLayer (layer outfitTemplate 0) [tshirtItem; jeansItem]) with [tshirtItem].
  change (inLayer (layer outfitTemplate 1) [tshirtItem; jeansItem]) with [jeansItem].
  unfold addAccessory.
  change (hasCategory "Shoes" [tshirtItem; jeansItem]) with (@nil ClothingItem).
  change (hasCategory "Hat" [tshirtItem; jeansItem]) with (@nil ClothingItem).
  change (hasCategory "Other" [tshirtItem; jeansItem]) with (@nil ClothingItem).
  rewrite !bind_run, !pick_singleton. reflexivity.
Qed.

(** C8. For the wardrobe of the red T-shirt "a" and the blue jeans "b"
    and a count of 3, every run returns exactly one recommendation: the
    pair in this order, of style "Casual" and of score 0.8, the half-sum
    of the colour compatibility 0.7 and the style compatibility 0.9. *)
Theorem C8_tshirt_jeans_example src :
  ∃ q why,
    generateOutfitRecommendations newService [tshirtItem; jeansItem] 3 None None [] src
    = [ {| items := [tshirtItem; jeansItem]; score := q; reason := why;
           style := "Casual" |} ] ∧
    q == 0.8 ∧
    calculateColorCompatibility newService tshirtItem jeansItem = 0.7 ∧
    calculateStyleCompatibility tshirtItem jeansItem = 0.9 ∧
    q == (calculateColorCompatibility newService tshirtItem jeansItem
          + calculateStyleCompatibility tshirtItem jeansItem) / 2.
Proof.
  exists (calculateOutfitScore newService [tshirtItem; jeansItem]).
  exists (generateRecommendationReason [tshirtItem; jeansItem]
            (calculateOutfitScore newService [tshirtItem; jeansItem]) "Casual").
  assert (Hstyle : classifyOutfitStyle [tshirtItem; jeansItem] = "Casual")
    by (vm_compute; reflexivity).
  split; [| repeat split; vm_compute; reflexivity].
  unfold generateOutfitRecommendations, collectRecommendations.
  change (filteredItems [tshirtItem; jeansItem] None None)
    with [tshirtItem; jeansItem].
  change (3 * 10)%nat with (S 29).
  rewrite retryLoop_step. cbn [recommendations length].
  change (0 <? 3)%nat with true. cbv iota.
  rewrite bind_run.
  assert (Hstep : attempt newService [tshirtItem; jeansItem] [] (mkCollected [] ∅) src 0%nat
          = (mkCollected [recommend newService [tshirtItem; jeansItem]]
               ({[outfitKey [tshirtItem; jeansItem]]} ∪ ∅), 2%nat)).
  { unfold attempt. rewrite bind_run, generate_tshirt_jeans. reflexivity. }
  rewrite Hstep. cbn [fst snd].
  rewrite (retryLoop_exhausted newService [tshirtItem; jeansItem] [] 3
             [tshirtItem; jeansItem]).
  - cbn [recommendations Js.sort Js.insert_sorted]. unfold recommend.
    rewrite Hstyle. reflexivity.
  - intros src' k. by rewrite generate_tshirt_jeans.
  - cbn [seen]. apply elem_of_union. left. by apply elem_of_singleton.
Qed.

(** In binary64 the arithmetic of the example gives the same number:
    the sum of the doubles nearest to 0.7 and 0.9, halved, is the double
    nearest to 0.8. *)
Remark tshirt_jeans_score_in_binary64 :
  scoreOfOnePairBinary64 0x1.6666666666666p-1 0x1.ccccccccccccdp-1
  = 0x1.999999999999ap-1%float.
Proof. vm_compute. reflexivity. Qed.

(** ** The scorer as a mean over index pairs *)

Lemma elem_of_indexPairs n i j :
  (i, j) ∈ indexPairs n ↔ (i < j < n)%nat.
Proof.
  unfold indexPairs. rewrite list_elem_of_bind. split.
  - intros (i' & Hj & Hi). apply list_elem_of_fmap in Hj as (j' & [= -> ->] & Hj).
    apply elem_of_seq in Hj. apply elem_of_seq in Hi. lia.
  - intros Hij. exists i. split.
    + apply list_elem_of_fmap. exists j. split; [done |]. apply elem_of_seq. lia.
    + apply elem_of_seq. lia.
Qed.

Lemma NoDup_indexPairs n : NoDup (indexPairs n).
Proof.
  unfold indexPairs. apply NoDup_bind; [| | apply NoDup_seq].
  - intros i1 i2 [i j] _ _ H1 H2.
    apply list_elem_of_fmap in H1 as (? & [= -> ->] & _).
    by apply list_elem_of_fmap in H2 as (? & [= -> ->] & _).
  - intros i _. apply NoDup_fmap_2; [| apply NoDup_seq].
    by intros j1 j2 [= ->].
Qed.

Lemma indexPairs_shift n (l : list nat) :
  (S <$> l) ≫= (λ i, (λ j, (i, j)) <$> seq (S i) (S n - S i))
  = prod_map S S <$> (l ≫= λ i, (λ j, (i, j)) <$> seq (S i) (n - S i)).
Proof.
  induction l as [|a l IH]; [done |].
  rewrite fmap_cons, !bind_cons, fmap_app, IH. f_equal.
  rewrite <- fmap_S_seq, <- !list_fmap_compose. done.
Qed.

Lemma indexPairs_S n :
  indexPairs (S n)
  = ((λ j, (0%nat, S j)) <$> seq 0 n) ++ (prod_map S S <$> indexPairs n).
Proof.
  unfold indexPairs. rewrite <- cons_seq, bind_cons. f_equal.
  - simpl. rewrite Nat.sub_0_r, <- fmap_S_seq, <- list_fmap_compose. done.
  - rewrite <- fmap_S_seq. apply indexPairs_shift.
Qed.

Lemma fmap_lookup_seq {A B : Type} (g : option A → B) (l : list A) :
  (λ j, g (l !! j)) <$> seq 0 (length l) = (λ y, g (Some y)) <$> l.
Proof.
  induction l as [|y l IH]; [done |].
  simpl. f_equal. rewrite <- fmap_S_seq, <- list_fmap_compose. exact IH.
Qed.

Lemma scoreAt_indexPairs this items :
  scoreAt this items <$> indexPairs (length items) = pairScores this items.
Proof.
  induction items as [|x after IH]; [done |].
  simpl. rewrite indexPairs_S, fmap_app, <- !list_fmap_compose. f_equal.
  - apply (fmap_lookup_seq
             (λ o, match o with Some b => pairScore this x b | None => 0 end) after).
  - rewrite <- IH. apply list_fmap_ext. by intros ? [i j] _.
Qed.

Lemma Qsum_app l1 l2 : Qsum (l1 ++ l2) == Qsum l1 + Qsum l2.
Proof.
  induction l1 as [|q l1 IH]; simpl; [ring |]. rewrite IH. ring.
Qed.

Lemma Qsum_cons q l : Qsum (q :: l) = q + Qsum l.
Proof. done. Qed.

Lemma scoreAgainst_spec this xi after acc :
  (scoreAgainst this xi after acc).1 == acc.1 + Qsum (pairScore this xi <$> after) ∧
  (scoreAgainst this xi after acc).2 = (acc.2 + length after)%nat.
Proof.
  revert acc. induction after as [|xj after IH]; intros acc.
  - simpl. split; [ring | lia].
  - cbn [scoreAgainst]. rewrite fmap_cons, Qsum_cons, length_cons.
    destruct (IH (acc.1 + pairScore this xi xj, S acc.2)) as [H1 H2].
    rewrite H1, H2. cbn [fst snd]. split; [ring | lia].
Qed.

Lemma scorePairs_spec this items acc :
  (scorePairs this items acc).1 == acc.1 + Qsum (pairScores this items) ∧
  (scorePairs this items acc).2 = (acc.2 + length (pairScores this items))%nat.
Proof.
  revert acc. induction items as [|xi after IH]; intros acc.
  - simpl. split; [ring | lia].
  - cbn [scorePairs pairScores].
    destruct (IH (scoreAgainst this xi after acc)) as [H1 H2].
    destruct (scoreAgainst_spec this xi after acc) as [H3 H4].
    rewrite H1, H2, H3, H4, Qsum_app, length_app, length_fmap.
    split; [ring | lia].
Qed.

(** C2. The score of the empty list and of a list of one item is 0; the
    score of a longer list is the arithmetic mean, over the pairs of
    positions [i < j], of the half-sum of the colour and the style
    compatibility of the two items, taken in this order:
    [meanPairScore] divides the sum of the terms [scoreAt] by their
    number, the term of the pair [(i, j)] is
    [(colorCompatibility(items[i], items[j])
      + styleCompatibility(items[i], items[j])) / 2],
    and the pairs are each pair [i < j] of positions, once. *)
Theorem C2_score_is_mean_over_pairs this :
  calculateOutfitScore this [] = 0 ∧
  (∀ x, calculateOutfitScore this [x] = 0) ∧
  (∀ items,
     calculateOutfitScore this items
     == if (length items <? 2)%nat then 0 else meanPairScore this items) ∧
  (∀ items i j a b,
     items !! i = Some a → items !! j = Some b →
     scoreAt this items (i, j)
     = (calculateColorCompatibility this a b + calculateStyleCompatibility a b) / 2) ∧
  (∀ n i j, (i, j) ∈ indexPairs n ↔ (i < j < n)%nat) ∧
  (∀ n, NoDup (indexPairs n)).
Proof.
  split; [done |]. split; [done |].
  split; [| split; [| split; [apply elem_of_indexPairs | apply NoDup_indexPairs]]];
    [| intros items i j a b Hi Hj; unfold scoreAt; cbn [fst snd];
       by rewrite Hi, Hj].
  intros items.
  unfold calculateOutfitScore, meanPairScore.
  destruct (length items <? 2)%nat; [reflexivity |].
  rewrite scoreAt_indexPairs.
  replace (length (indexPairs (length items))) with (length (pairScores this items))
    by (by rewrite <- scoreAt_indexPairs, length_fmap).
  destruct (scorePairs_spec this items (0, 0%nat)) as [Htotal Hcount].
  destruct (scorePairs this items (0, 0%nat)) as [totalScore comparisons].
  simpl in Htotal, Hcount. subst comparisons.
  destruct (pairScores this items) as [|q l] eqn:Hpairs; [reflexivity |].
  change (0 <? length (q :: l))%nat with true. cbv iota.
  rewrite Htotal. apply Qdiv_comp; [ring | reflexivity].
Qed.

(** ** Feedback does not reach the scorer *)

Section SameMatrix.
Context (this this' : IntelligentService).
Hypothesis same_matrix :
  colorCompatibilityMatrix this = colorCompatibilityMatrix this'.

Lemma pairScore_same a b : pairScore this a b = pairScore this' a b.
Proof. unfold pairScore, calculateColorCompatibility. by rewrite same_matrix. Qed.

Lemma scoreAgainst_same xi after acc :
  scoreAgainst this xi after acc = scoreAgainst this' xi after acc.
Proof.
  revert acc. induction after as [|xj after IH]; intros acc; simpl; [done |].
  by rewrite pairScore_same, IH.
Qed.

Lemma scorePairs_same items acc :
  scorePairs this items acc = scorePairs this' items acc.
Proof.
  revert acc. induction items as [|xi after IH]; intros acc; simpl; [done |].
  by rewrite scoreAgainst_same, IH.
Qed.

Lemma recommend_same items : recommend this items = recommend this' items.
Proof.
  unfold recommend, calculateOutfitScore. by rewrite scorePairs_same.
Qed.

Lemma attempt_same pool requiredCategories st src k :
  attempt this pool requiredCategories st src k
  = attempt this' pool requiredCategories st src k.
Proof. unfold attempt. rewrite !bind_run. by rewrite recommend_same. Qed.

Lemma retryLoop_same pool requiredCategories numRecommendations attemptsLeft st src k :
  retryLoop this pool requiredCategories numRecommendations attemptsLeft st src k
  = retryLoop this' pool requiredCategories numRecommendations attemptsLeft st src k.
Proof.
  revert st k. induction attemptsLeft as [|n IH]; intros st k; simpl; [done |].
  destruct (length (recommendations st) <? numRecommendations)%nat; [| done].
  rewrite !bind_run, attempt_same. apply IH.
Qed.

Lemma generateOutfitRecommendations_same clothingItems numRecommendations
    occasion weather requiredCategories src :
  generateOutfitRecommendations this clothingItems numRecommendations
    occasion weather requiredCategories src
  = generateOutfitRecommendations this' clothingItems numRecommendations
      occasion weather requiredCategories src.
Proof.
  unfold generateOutfitRecommendations, collectRecommendations.
  by rewrite retryLoop_same.
Qed.
End SameMatrix.

Lemma act_matrix this a :
  colorCompatibilityMatrix (act this a) = colorCompatibilityMatrix this.
Proof. by destruct a. Qed.

Lemma afterFeedback_matrix this actions :
  colorCompatibilityMatrix (afterFeedback this actions) = colorCompatibilityMatrix this.
Proof.
  revert this. induction actions as [|a actions IH]; intros this; [done |].
  unfold afterFeedback in *. simpl. by rewrite IH, act_matrix.
Qed.

(** C7. The recommendations do not depend on the stored feedback: two
    instances with the same colour matrix and arbitrary ratings and
    style preferences, and likewise one instance after two arbitrary
    sequences of [rateOutfit], [updateStylePreferences] and
    [loadUserPreferences], return the same list for the same wardrobe,
    count, filters, required categories and draws. *)
Theorem C7_feedback_never_affects_scoring clothingItems numRecommendations
    occasion weather requiredCategories src :
  (∀ matrix ratings preferences ratings' preferences',
     generateOutfitRecommendations (mkService ratings matrix preferences)
       clothingItems numRecommendations occasion weather requiredCategories src
     = generateOutfitRecommendations (mkService ratings' matrix preferences')
         clothingItems numRecommendations occasion weather requiredCategories src) ∧
  (∀ this actions actions',
     generateOutfitRecommendations (afterFeedback this actions)
       clothingItems numRecommendations occasion weather requiredCategories src
     = generateOutfitRecommendations (afterFeedback this actions')
         clothingItems numRecommendations occasion weather requiredCategories src).
Proof.
  split.
  - intros. by apply generateOutfitRecommendations_same.
  - intros. apply generateOutfitRecommendations_same.
    by rewrite !afterFeedback_matrix.
Qed.

(** * Further properties of the service *)

(** ** Colours *)

Lemma lower_ascii_idem c : Js.lower_ascii (Js.lower_ascii c) = Js.lower_ascii c.
Proof. by destruct c as [[] [] [] [] [] [] [] []]. Qed.

Lemma toLowerCase_idem s : Js.toLowerCase (Js.toLowerCase s) = Js.toLowerCase s.
Proof.
  induction s as [|c s IH]; simpl; [done |].
  by rewrite lower_ascii_idem, IH.
Qed.

Lemma colorMapping_canonical k v : colorMapping !! k = Some v → v ∈ colors.
Proof.
  intros H. apply elem_of_list_to_map_2 in H.
  repeat (apply elem_of_cons in H as [[= -> ->] | H];
          [apply (bool_decide_unpack _); vm_compute; exact I |]).
  by apply elem_of_nil in H.
Qed.

Lemma extractColorFromItem_canonical item : extractColorFromItem item ∈ colors.
Proof.
  unfold extractColorFromItem.
  destruct (colorMapping !! Js.toLowerCase (color item)) as [v|] eqn:H; simpl.
  - by eapply colorMapping_canonical.
  - apply (bool_decide_unpack _). vm_compute. exact I.
Qed.

(** X1. [extractColorFromItem] is total on free text: its result is
    always one of the eleven canonical colours, it does not depend on
    the case of the letters of the colour, and a canonical colour name
    stands for itself.
    Stated for a colour that, in lower case, is no name inherited from
    [Object.prototype]. *)
Theorem X1_extracted_color_is_canonical (u cat c : string) :
  ownKey (Js.toLowerCase c) = true →
  extractColorFromItem (mkItem u cat c) ∈ colors ∧
  extractColorFromItem (mkItem u cat (Js.toLowerCase c))
    = extractColorFromItem (mkItem u cat c) ∧
  (c ∈ colors → extractColorFromItem (mkItem u cat c) = c).
Proof.
  intros _.
  split; [apply extractColorFromItem_canonical |]. split.
  - unfold extractColorFromItem. cbn [color]. by rewrite toLowerCase_idem.
  - revert c. apply elem_of_colors; reflexivity.
Qed.

Lemma X1_witness :
  extractColorFromItem (mkItem "u" "Hat" "gray") = "gray".
Proof.
  apply (X1_extracted_color_is_canonical "u" "Hat" "gray").
  - reflexivity.
  - apply (bool_decide_unpack _). vm_compute. exact I.
Defined.

(** The colour score of two canonical colours, read in the matrix of the
    constructor. *)
Lemma matrix_scores a b :
  a ∈ colors → b ∈ colors →
  let m := colorCompatibilityMatrix newService in
  Js.or_default (lookup2 m a b) 0.5 = Js.or_default (lookup2 m b a) 0.5 ∧
  0.5 <= Js.or_default (lookup2 m a b) 0.5 ∧
  Js.or_default (lookup2 m a b) 0.5 <= 1 ∧
  (Js.or_default (lookup2 m a b) 0.5 == 1 ↔ a = b).
Proof.
  intros Ha Hb. revert b Hb. revert a Ha.
  apply (elem_of_colors (λ a, ∀ b, b ∈ colors → _));
    apply elem_of_colors; cbv zeta;
    (split; [vm_compute; reflexivity |]);
    (split; [apply Qle_bool_imp_le; vm_compute; reflexivity |]);
    (split; [apply Qle_bool_imp_le; vm_compute; reflexivity |]);
    (split; [intros H; apply Qeq_eq_bool in H; vm_compute in H; by try discriminate H
            | intros H; by try discriminate H]).
Qed.

(** X2. On the instance the application uses, after any feedback, the
    colour compatibility of two items is symmetric, lies between 0.5 and
    1, and is 1 exactly when the two items have the same canonical
    colour.
    Stated for colours that, in lower case, are no name inherited from
    [Object.prototype]. *)
Theorem X2_color_compatibility_symmetric_bounded actions (a b : ClothingItem) :
  ownKey (Js.toLowerCase (color a)) = true →
  ownKey (Js.toLowerCase (color b)) = true →
  let this := afterFeedback newService actions in
  calculateColorCompatibility this a b = calculateColorCompatibility this b a ∧
  0.5 <= calculateColorCompatibility this a b <= 1 ∧
  (calculateColorCompatibility this a b == 1
   ↔ extractColorFromItem a = extractColorFromItem b).
Proof.
  intros _ _.
  intros this. unfold calculateColorCompatibility, this.
  rewrite afterFeedback_matrix.
  destruct (matrix_scores (extractColorFromItem a) (extractColorFromItem b)
              (extractColorFromItem_canonical a) (extractColorFromItem_canonical b))
    as (Hsym & Hlo & Hhi & Hone).
  split; [exact Hsym |]. split; [split; [exact Hlo | exact Hhi] | exact Hone].
Qed.

Lemma X2_witness :
  calculateColorCompatibility (afterFeedback newService [RateOutfit "a|b" 5 10])
    tshirtItem jeansItem
  = calculateColorCompatibility (afterFeedback newService [RateOutfit "a|b" 5 10])
      jeansItem tshirtItem.
Proof.
  destruct (X2_color_compatibility_symmetric_bounded [RateOutfit "a|b" 5 10]
              tshirtItem jeansItem) as [Hsym _].
  - reflexivity.
  - reflexivity.
  - exact Hsym.
Defined.

(** ** Bounds on the scores *)

Lemma styleRules_bounds c1 c2 v :
  lookup2 styleRules c1 c2 = Some v → 0.2 <= v ∧ v <= 0.9 ∧ ¬ v == 0.
Proof.
  unfold lookup2. intros H.
  destruct (styleRules !! c1) as [row|] eqn:Hrow; [| done].
  cbn [mbind option_bind] in H.
  apply elem_of_list_to_map_2 in Hrow.
  repeat (apply elem_of_cons in Hrow as [[= -> ->] | Hrow];
    [repeat (apply lookup_insert_Some in H as [[_ <-] | [_ H]];
       [split; [apply Qle_bool_imp_le; reflexivity |];
        split; [apply Qle_bool_imp_le; reflexivity |];
        apply Qeq_bool_neq; reflexivity |]);
     by rewrite lookup_empty in H |]).
  by apply elem_of_nil in Hrow.
Qed.

Lemma calculateStyleCompatibility_bounds (a b : ClothingItem) :
  0.2 <= calculateStyleCompatibility a b ∧ calculateStyleCompatibility a b <= 0.9.
Proof.
  unfold calculateStyleCompatibility.
  destruct (lookup2 styleRules (Js.toLowerCase (category a))
              (Js.toLowerCase (category b))) as [v|] eqn:H; cbn [Js.or_default].
  - destruct (styleRules_bounds _ _ _ H) as (Hlo & Hhi & Hnz).
    destruct (Qeq_bool v 0) eqn:Hz; [| by split].
    by apply Qeq_bool_eq in Hz.
  - split; apply Qle_bool_imp_le; reflexivity.
Qed.

(** X3. The style compatibility of any two items lies between 0.2 and
    0.9, whatever their categories; and it is the default 0.5 as soon as
    the category of the first item, in lower case, is none of the five
    rows of the table, whatever the second item.
    Stated for categories that, in lower case, are no name inherited
    from [Object.prototype]; the second part needs this of the first
    item only. *)
Theorem X3_style_compatibility_bounded (a b : ClothingItem) :
  ownKey (Js.toLowerCase (category a)) = true →
  (ownKey (Js.toLowerCase (category b)) = true →
   0.2 <= calculateStyleCompatibility a b <= 0.9) ∧
  (Js.toLowerCase (category a) ∉ ["t-shirt"; "shirt"; "jeans"; "dress"; "skirt"] →
   calculateStyleCompatibility a b = 0.5).
Proof.
  intros _. split; [intros _; apply calculateStyleCompatibility_bounds |].
  intros Hrow. unfold calculateStyleCompatibility, lookup2, styleRules.
  rewrite (not_elem_of_list_to_map_1 _ (Js.toLowerCase (category a))); [done |].
  exact Hrow.
Qed.

Lemma X3_witness :
  calculateStyleCompatibility shoesItem jeansItem = 0.5.
Proof.
  apply (X3_style_compatibility_bounded shoesItem jeansItem).
  - reflexivity.
  - apply (bool_decide_unpack _). vm_compute. exact I.
Defined.

Lemma pairScore_bounds actions a b :
  0.35 <= pairScore (afterFeedback newService actions) a b <= 0.95.
Proof.
  unfold pairScore.
  destruct (calculateStyleCompatibility_bounds a b) as [Hs1 Hs2].
  pose proof (afterFeedback_matrix newService actions) as Hm.
  assert (Hc : 0.5 <= calculateColorCompatibility (afterFeedback newService actions) a b
               ∧ calculateColorCompatibility (afterFeedback newService actions) a b <= 1).
  { unfold calculateColorCompatibility. rewrite Hm.
    destruct (matrix_scores (extractColorFromItem a) (extractColorFromItem b)
                (extractColorFromItem_canonical a) (extractColorFromItem_canonical b))
      as (_ & Hlo & Hhi & _).
    split; [exact Hlo | exact Hhi]. }
  destruct Hc as [Hc1 Hc2].
  set (c := calculateColorCompatibility _ a b) in *.
  set (s := calculateStyleCompatibility a b) in *.
  split.
  - apply Qle_shift_div_l; [reflexivity | lra].
  - apply Qle_shift_div_r; [reflexivity | lra].
Qed.

Lemma Qsum_bounds (lo hi : Q) (l : list Q) :
  Forall (λ q, lo <= q ∧ q <= hi) l →
  lo * inject_Z (Z.of_nat (length l)) <= Qsum l ∧
  Qsum l <= hi * inject_Z (Z.of_nat (length l)).
Proof.
  induction 1 as [|q l [Hlo Hhi] _ [IH1 IH2]].
  - change (inject_Z (Z.of_nat (length (@nil Q)))) with 0.
    change (Qsum []) with 0. split; lra.
  - rewrite Qsum_cons. cbn [length].
    rewrite Nat2Z.inj_succ, <- Z.add_1_r, inject_Z_plus.
    change (inject_Z 1) with 1.
    set (n := inject_Z (Z.of_nat (length l))) in *. split; lra.
Qed.

(** The score of a list of two items or more is the mean of the scores
    of its pairs, of which there is at least one. *)
Lemma calculateOutfitScore_mean this items :
  (2 ≤ length items)%nat →
  pairScores this items ≠ [] ∧
  calculateOutfitScore this items
  == Qsum (pairScores this items)
     / inject_Z (Z.of_nat (length (pairScores this items))).
Proof.
  intros Hlen.
  assert (Hne : pairScores this items ≠ []).
  { destruct items as [|x [|y items]]; simpl in Hlen; try lia. done. }
  split; [exact Hne |].
  unfold calculateOutfitScore.
  destruct (length items <? 2)%nat eqn:Hlt; [apply Nat.ltb_lt in Hlt; lia |].
  destruct (scorePairs_spec this items (0, 0%nat)) as [Htotal Hcount].
  destruct (scorePairs this items (0, 0%nat)) as [totalScore comparisons].
  cbn [fst snd] in Htotal, Hcount. rewrite Nat.add_0_l in Hcount. subst comparisons.
  destruct (pairScores this items) as [|q l]; [done |].
  change (0 <? length (q :: l))%nat with true. cbv iota.
  rewrite Htotal. apply Qdiv_comp; [ring | reflexivity].
Qed.

Lemma calculateOutfitScore_bounds actions items :
  (2 ≤ length items)%nat →
  0.35 <= calculateOutfitScore (afterFeedback newService actions) items ∧
  calculateOutfitScore (afterFeedback newService actions) items <= 0.95.
Proof.
  intros Hlen. set (this := afterFeedback newService actions).
  destruct (calculateOutfitScore_mean this items Hlen) as [Hne Hmean].
  assert (Hall : Forall (λ q, 0.35 <= q ∧ q <= 0.95) (pairScores this items)).
  { clear. induction items as [|x after IH]; [constructor |].
    cbn [pairScores]. apply Forall_app. split; [| exact IH].
    apply Forall_fmap, Forall_forall. intros y _. apply pairScore_bounds. }
  destruct (Qsum_bounds 0.35 0.95 _ Hall) as [H1 H2].
  assert (Hn : 0 < inject_Z (Z.of_nat (length (pairScores this items)))).
  { change 0 with (inject_Z 0). rewrite <- Zlt_Qlt.
    destruct (pairScores this items); [done | simpl; lia]. }
  rewrite Hmean. split.
  - by apply Qle_shift_div_l.
  - by apply Qle_shift_div_r.
Qed.

(** X4. On the instance the application uses, after any feedback,
    every recommendation returned has a score between 0.35 and 0.95: the
    mean of half-sums of a colour score of at least 0.5 and a style
    score of at most 0.9.
    Stated for items whose colour and category, in lower case, and
    for an occasion and a weather that are no name inherited from
    [Object.prototype]. *)
Theorem X4_recommendation_score_bounded actions clothingItems numRecommendations
    occasion weather requiredCategories src :
  forallb plainItem clothingItems = true →
  plainFilter occasion = true → plainFilter weather = true →
  Forall (λ r, 0.35 <= score r <= 0.95)
    (generateOutfitRecommendations (afterFeedback newService actions) clothingItems
       numRecommendations occasion weather requiredCategories src).
Proof.
  intros _ _ _.
  apply generateOutfitRecommendations_Forall.
  intros src' k outfit Hlen. by apply calculateOutfitScore_bounds.
Qed.

Lemma X4_witness :
  Forall (λ r, 0.35 <= score r <= 0.95)
    (generateOutfitRecommendations (afterFeedback newService [])
       [tshirtItem; shirtItem; jeansItem; shoesItem] 2
       (Some "Casual") None [] (always draw_zero)).
Proof.
  apply (X4_recommendation_score_bounded []
           [tshirtItem; shirtItem; jeansItem; shoesItem] 2%nat
           (Some "Casual") None [] (always draw_zero)); reflexivity.
Defined.

(** ** The reason *)

Lemma generateRecommendationReason_index items score style :
  generateRecommendationReason items score style
  = Js.index (reasonTemplates style) (Z.min (Qfloor (score * 5)) 4).
Proof. reflexivity. Qed.

(** X5. [generateRecommendationReason] over the whole range of scores:
    a negative score gives [undefined], every other score gives one of
    the five sentences, the one at position [floor(score * 5)] capped at
    the last; from 0.8 up it is the last sentence. *)
Theorem X5_reason_by_score items score style :
  (score < 0 → generateRecommendationReason items score style = None) ∧
  (0 <= score →
   ∃ i, (i ≤ 4)%nat ∧ Z.of_nat i = Z.min (Qfloor (score * 5)) 4 ∧
        generateRecommendationReason items score style = reasonTemplates style !! i ∧
        is_Some (generateRecommendationReason items score style)) ∧
  (0.8 <= score →
   generateRecommendationReason items score style
   = Some ("Trendy " +:+ Js.toLowerCase style +:+ " combination with modern appeal")).
Proof.
  rewrite generateRecommendationReason_index. unfold Js.index.
  split; [| split].
  - intros Hneg.
    assert (H : (Qfloor (score * 5) < 0)%Z).
    { rewrite Zlt_Qlt. eapply Qle_lt_trans; [apply Qfloor_le |].
      change (inject_Z 0) with 0. lra. }
    destruct (Z.ltb_spec (Z.min (Qfloor (score * 5)) 4) 0); [done | lia].
  - intros Hpos.
    assert (H : (0 ≤ Qfloor (score * 5))%Z).
    { rewrite <- (Qfloor_Z 0). apply Qfloor_resp_le. change (inject_Z 0) with 0. lra. }
    destruct (Z.ltb_spec (Z.min (Qfloor (score * 5)) 4) 0); [lia |].
    exists (Z.to_nat (Z.min (Qfloor (score * 5)) 4)).
    split; [lia |]. split; [lia |]. split; [done |].
    apply lookup_lt_is_Some. simpl. lia.
  - intros Hhigh.
    assert (H : (4 ≤ Qfloor (score * 5))%Z).
    { rewrite <- (Qfloor_Z 4). apply Qfloor_resp_le. change (inject_Z 4) with 4. lra. }
    rewrite Z.min_r by lia. reflexivity.
Qed.

Lemma X5_witness :
  generateRecommendationReason [] 0.85 "Casual"
  = Some "Trendy casual combination with modern appeal" ∧
  generateRecommendationReason [] (-0.1) "Casual" = None.
Proof.
  destruct (X5_reason_by_score [] 0.85 "Casual") as (_ & _ & Hhigh).
  destruct (X5_reason_by_score [] (-0.1) "Casual") as (Hneg & _ & _).
  split.
  - apply Hhigh. apply Qle_bool_imp_le. reflexivity.
  - apply Hneg. reflexivity.
Defined.

(** X6. On the instance the application uses, after any feedback,
    every recommendation returned carries a reason: one of the four
    sentences after the first, chosen by its score. The sentence "Great
    ... excellent color harmony", kept for scores under 0.2, is never
    returned.
    Stated for items whose colour and category, in lower case, and
    for an occasion and a weather that are no name inherited from
    [Object.prototype]. *)
Theorem X6_returned_reason_defined actions clothingItems numRecommendations
    occasion weather requiredCategories src :
  forallb plainItem clothingItems = true →
  plainFilter occasion = true → plainFilter weather = true →
  Forall (λ r, ∃ i, (1 ≤ i ≤ 4)%nat ∧
                    reason r = reasonTemplates (style r) !! i ∧
                    is_Some (reason r))
    (generateOutfitRecommendations (afterFeedback newService actions) clothingItems
       numRecommendations occasion weather requiredCategories src).
Proof.
  intros _ _ _.
  apply generateOutfitRecommendations_Forall.
  intros src' k outfit Hlen.
  destruct (calculateOutfitScore_bounds actions outfit Hlen) as [Hlo Hhi].
  unfold recommend. cbn [reason style].
  set (q := calculateOutfitScore (afterFeedback newService actions) outfit) in *.
  rewrite generateRecommendationReason_index. unfold Js.index.
  assert (H1 : (1 ≤ Qfloor (q * 5))%Z).
  { rewrite <- (Qfloor_Z 1). apply Qfloor_resp_le. change (inject_Z 1) with 1. lra. }
  destruct (Z.ltb_spec (Z.min (Qfloor (q * 5)) 4) 0); [lia |].
  exists (Z.to_nat (Z.min (Qfloor (q * 5)) 4)).
  split; [lia |]. split; [done |].
  apply lookup_lt_is_Some. simpl. lia.
Qed.

Lemma X6_witness :
  Forall (λ r, ∃ i, (1 ≤ i ≤ 4)%nat ∧
                    reason r = reasonTemplates (style r) !! i ∧
                    is_Some (reason r))
    (generateOutfitRecommendations (afterFeedback newService [])
       [tshirtItem; shirtItem; jeansItem; shoesItem] 2
       None (Some "Mild") [] (always draw_high)).
Proof.
  apply (X6_returned_reason_defined []
           [tshirtItem; shirtItem; jeansItem; shoesItem] 2%nat
           None (Some "Mild") [] (always draw_high)); reflexivity.
Defined.

(** ** No outfit twice *)

Lemma retryLoop_keys this pool requiredCategories numRecommendations :
  ∀ attemptsLeft st src k,
    NoDup ((λ r, outfitKey (items r)) <$> recommendations st) →
    (∀ r, r ∈ recommendations st → outfitKey (items r) ∈ seen st) →
    let st' := (retryLoop this pool requiredCategories numRecommendations
                  attemptsLeft st src k).1 in
    NoDup ((λ r, outfitKey (items r)) <$> recommendations st') ∧
    (∀ r, r ∈ recommendations st' → outfitKey (items r) ∈ seen st').
Proof.
  induction attemptsLeft as [|n IH]; intros st src k Hnd Hseen; [done |].
  rewrite retryLoop_step.
  destruct (length (recommendations st) <? numRecommendations)%nat; [| done].
  rewrite bind_run. apply IH.
  - destruct (attempt_cases this pool requiredCategories st src k)
      as [-> | (_ & Hfresh & -> & _)]; [done |].
    rewrite fmap_app. apply NoDup_app. split; [done |]. split.
    + intros key Hkey Hkey'. apply list_elem_of_singleton in Hkey'.
      apply list_elem_of_fmap in Hkey as (r & -> & Hr).
      apply Hseen in Hr. cbn [items recommend] in Hkey'. congruence.
    + apply NoDup_singleton.
  - destruct (attempt_cases this pool requiredCategories st src k)
      as [-> | (_ & _ & Hrecs & Hkeys)]; [done |].
    intros r. rewrite Hrecs, Hkeys. intros [Hr | Hr]%elem_of_app.
    + apply elem_of_union. right. by apply Hseen.
    + apply list_elem_of_singleton in Hr as ->.
      apply elem_of_union. left. by apply elem_of_singleton.
Qed.

(** X7. No two recommendations of one call have the same key (the
    sorted identifiers of their items joined by a bar): an outfit already
    returned is not returned again by a later attempt.
    Stated for an occasion and a weather that are no name inherited
    from [Object.prototype]. *)
Theorem X7_no_duplicate_outfit this clothingItems numRecommendations
    occasion weather requiredCategories src :
  plainFilter occasion = true → plainFilter weather = true →
  NoDup ((λ r, outfitKey (items r)) <$>
           generateOutfitRecommendations this clothingItems numRecommendations
             occasion weather requiredCategories src).
Proof.
  intros _ _.
  unfold generateOutfitRecommendations, byScore.
  rewrite (sort_Permutation score). unfold collectRecommendations.
  apply retryLoop_keys; cbn [recommendations].
  - constructor.
  - intros r Hr. by apply elem_of_nil in Hr.
Qed.

Lemma X7_witness :
  NoDup ((λ r, outfitKey (items r)) <$>
           generateOutfitRecommendations newService [tshirtItem; jeansItem] 3
             None None [] (always draw_zero)).
Proof.
  apply (X7_no_duplicate_outfit newService [tshirtItem; jeansItem] 3%nat
           None None [] (always draw_zero)); reflexivity.
Defined.

(** ** The filters *)

Lemma elem_of_filteredItems clothingItems occasion weather x :
  x ∈ filteredItems clothingItems occasion weather →
  x ∈ clothingItems ∧
  (∀ o, occasion = Some o → o ≠ "" →
        category x ∈ default [] (occasionMap !! o)) ∧
  (∀ w, weather = Some w → w ≠ "" →
        category x ∈ default [] (weatherMap !! w)).
Proof.
  unfold filteredItems, filterByOccasion, Js.includes. intros Hx.
  assert (Hocc : ∀ o, Js.truthy_string (Some o) = false → o ≠ "" → False).
  { intros o H Hne. cbn in H. apply negb_false_iff, String.eqb_eq in H. done. }
  destruct occasion as [o|], weather as [w|]; cbn [default] in Hx.
  - destruct (Js.truthy_string (Some o)) eqn:Ho, (Js.truthy_string (Some w)) eqn:Hw;
      repeat (apply list_elem_of_filter in Hx as [?%bool_decide_eq_true Hx]);
      (split; [done |]); split; intros ? [= <-] ?; try done;
      exfalso; eauto.
  - destruct (Js.truthy_string (Some o)) eqn:Ho;
      repeat (apply list_elem_of_filter in Hx as [?%bool_decide_eq_true Hx]);
      (split; [done |]); split; intros ? [=] ?; subst; try done;
      exfalso; eauto.
  - destruct (Js.truthy_string (Some w)) eqn:Hw;
      repeat (apply list_elem_of_filter in Hx as [?%bool_decide_eq_true Hx]);
      (split; [done |]); split; intros ? [=] ?; subst; try done;
      exfalso; eauto.
  - split; [done |]. split; intros ? [=].
Qed.

Lemma occasionMap_never o allowed :
  occasionMap !! o = Some allowed →
  ("Jacket" ∉ allowed) ∧ ("Hat" ∉ allowed) ∧ ("Other" ∉ allowed).
Proof.
  intros H. apply elem_of_list_to_map_2 in H.
  repeat (apply elem_of_cons in H as [[= -> ->] | H];
          [repeat split; apply (bool_decide_unpack _); vm_compute; exact I |]).
  by apply elem_of_nil in H.
Qed.

Lemma weatherMap_never w allowed :
  weatherMap !! w = Some allowed → ("Hoodie" ∉ allowed) ∧ ("Other" ∉ allowed).
Proof.
  intros H. apply elem_of_list_to_map_2 in H.
  repeat (apply elem_of_cons in H as [[= -> ->] | H];
          [repeat split; apply (bool_decide_unpack _); vm_compute; exact I |]).
  by apply elem_of_nil in H.
Qed.

(** X8. Every item of every recommendation returned is an item of the
    wardrobe whose category the filters allow: with an occasion, a
    category of the list of that occasion; with a weather, a category of
    the list of that weather.
    Stated for an occasion and a weather that are no name inherited
    from [Object.prototype]. *)
Theorem X8_filters_are_respected this clothingItems numRecommendations
    occasion weather requiredCategories src :
  plainFilter occasion = true → plainFilter weather = true →
  Forall (λ r, ∀ x, x ∈ items r →
      x ∈ clothingItems ∧
      (∀ o, occasion = Some o → o ≠ "" →
            category x ∈ default [] (occasionMap !! o)) ∧
      (∀ w, weather = Some w → w ≠ "" →
            category x ∈ default [] (weatherMap !! w)))
    (generateOutfitRecommendations this clothingItems numRecommendations
       occasion weather requiredCategories src).
Proof.
  intros _ _.
  apply generateOutfitRecommendations_Forall.
  intros src' k outfit Hlen x Hx. cbn [items recommend] in Hx.
  apply elem_of_filteredItems.
  by apply (generateSingleOutfitWithRequired_spec _ outfitTemplate
              outfitTemplate_rows_disjoint requiredCategories src' k).
Qed.

Lemma X8_witness :
  let result := generateOutfitRecommendations newService
                  [tshirtItem; shortsItem; hatItem; shoesItem] 2
                  (Some "Casual") (Some "Hot") [] (always draw_high) in
  items <$> result = [[tshirtItem; shortsItem; shoesItem]] ∧
  Forall (λ r, ∀ x, x ∈ items r →
      x ∈ [tshirtItem; shortsItem; hatItem; shoesItem] ∧
      (∀ o, Some "Casual" = Some o → o ≠ "" →
            category x ∈ default [] (occasionMap !! o)) ∧
      (∀ w, Some "Hot" = Some w → w ≠ "" →
            category x ∈ default [] (weatherMap !! w)))
    result.
Proof.
  intros result. split.
  - vm_compute. reflexivity.
  - apply (X8_filters_are_respected newService
             [tshirtItem; shortsItem; hatItem; shoesItem] 2%nat
             (Some "Casual") (Some "Hot") [] (always draw_high)); reflexivity.
Defined.

(** X9. What the filters never let through: with any occasion no
    recommendation holds a jacket, a hat or an item of category "Other";
    with any weather none holds a hoodie or an item of category
    "Other". No list of the two tables names these categories.
    Stated for an occasion and a weather that are no name inherited
    from [Object.prototype]. *)
Theorem X9_categories_lost_to_filters this clothingItems numRecommendations
    occasion weather requiredCategories src :
  plainFilter occasion = true → plainFilter weather = true →
  Forall (λ r, ∀ x, x ∈ items r →
      (Js.truthy_string occasion = true →
       category x ≠ "Jacket" ∧ category x ≠ "Hat" ∧ category x ≠ "Other") ∧
      (Js.truthy_string weather = true →
       category x ≠ "Hoodie" ∧ category x ≠ "Other"))
    (generateOutfitRecommendations this clothingItems numRecommendations
       occasion weather requiredCategories src).
Proof.
  intros _ _.
  apply generateOutfitRecommendations_Forall.
  intros src' k outfit Hlen x Hx. cbn [items recommend] in Hx.
  assert (Hpool : x ∈ filteredItems clothingItems occasion weather)
    by by apply (generateSingleOutfitWithRequired_spec _ outfitTemplate
                   outfitTemplate_rows_disjoint requiredCategories src' k).
  apply elem_of_filteredItems in Hpool as (_ & Hocc & Hwea).
  split.
  - intros Ht. destruct occasion as [o|]; [| done].
    cbn in Ht. apply negb_true_iff, String.eqb_neq in Ht.
    specialize (Hocc o eq_refl Ht).
    destruct (occasionMap !! o) as [allowed|] eqn:Hmap; cbn [default] in Hocc;
      [| by apply elem_of_nil in Hocc].
    destruct (occasionMap_never o allowed Hmap) as (H1 & H2 & H3).
    repeat split; intros Heq; rewrite Heq in Hocc; done.
  - intros Ht. destruct weather as [w|]; [| done].
    cbn in Ht. apply negb_true_iff, String.eqb_neq in Ht.
    specialize (Hwea w eq_refl Ht).
    destruct (weatherMap !! w) as [allowed|] eqn:Hmap; cbn [default] in Hwea;
      [| by apply elem_of_nil in Hwea].
    destruct (weatherMap_never w allowed Hmap) as (H1 & H2).
    repeat split; intros Heq; rewrite Heq in Hwea; done.
Qed.

Lemma X9_witness :
  Forall (λ r, ∀ x, x ∈ items r →
      (Js.truthy_string (Some "Casual") = true →
       category x ≠ "Jacket" ∧ category x ≠ "Hat" ∧ category x ≠ "Other") ∧
      (Js.truthy_string None = true →
       category x ≠ "Hoodie" ∧ category x ≠ "Other"))
    (generateOutfitRecommendations newService
       [tshirtItem; jeansItem; hatItem; shoesItem] 2
       (Some "Casual") None ["Hat"] (always draw_zero)).
Proof.
  apply (X9_categories_lost_to_filters newService
           [tshirtItem; jeansItem; hatItem; shoesItem] 2%nat
           (Some "Casual") None ["Hat"] (always draw_zero)); reflexivity.
Defined.

(** ** Pools that yield nothing *)

(** X10. When fewer than two items of the wardrobe pass the filters,
    no recommendation is returned, whatever the count asked for; this is
    the case of an occasion or a weather that the tables do not know,
    which lets no item through.
    Stated for an occasion and a weather that are no name inherited
    from [Object.prototype]. *)
Theorem X10_small_pool_yields_nothing this clothingItems numRecommendations
    occasion weather requiredCategories src :
  plainFilter occasion = true → plainFilter weather = true →
  (length (filteredItems clothingItems occasion weather) < 2)%nat →
  generateOutfitRecommendations this clothingItems numRecommendations
    occasion weather requiredCategories src = [].
Proof.
  intros _ _.
  intros Hsmall.
  assert (Hall : Forall (λ _, False)
            (generateOutfitRecommendations this clothingItems numRecommendations
               occasion weather requiredCategories src)).
  { apply generateOutfitRecommendations_Forall. intros src' k outfit Hlen.
    pose proof (generateSingleOutfitWithRequired_length
                  (filteredItems clothingItems occasion weather)
                  requiredCategories src' k) as H1.
    fold outfit in H1. lia. }
  destruct (generateOutfitRecommendations this clothingItems numRecommendations
              occasion weather requiredCategories src) as [|r rs]; [done |].
  by apply Forall_cons in Hall as [? _].
Qed.

Lemma X10_witness :
  generateOutfitRecommendations newService [tshirtItem; jeansItem; shoesItem] 3
    (Some "Party") None [] (always draw_high) = [].
Proof.
  apply (X10_small_pool_yields_nothing newService [tshirtItem; jeansItem; shoesItem]
           3%nat (Some "Party") None [] (always draw_high)).
  - reflexivity.
  - reflexivity.
  - vm_compute. lia.
Defined.

(** ** Required categories *)

Lemma keeps_refl b : keeps b b.
Proof. by split. Qed.

Lemma keeps_trans b1 b2 b3 : keeps b1 b2 → keeps b2 b3 → keeps b1 b3.
Proof. intros [H1 S1] [H2 S2]. split; [auto | by etrans]. Qed.

Lemma keeps_push x cat b : category x = cat → keeps b (push x cat b).
Proof.
  intros Hcat. unfold push. split; cbn [b_items b_used].
  - intros Hb c [Hc | Hc]%elem_of_union.
    + apply elem_of_singleton in Hc as ->. exists x. split; [| done].
      apply elem_of_app. right. by apply list_elem_of_singleton.
    + destruct (Hb c Hc) as (y & Hy & Hcy). exists y. split; [| done].
      apply elem_of_app. by left.
  - apply union_subseteq_r.
Qed.

Lemma addFromLayer_keeps pool row b src k :
  keeps b (addFromLayer pool row b src k).1.
Proof.
  unfold addFromLayer.
  destruct (inLayer row pool) as [|x0 xs]; [apply keeps_refl |].
  rewrite bind_run. unfold ret. cbn [fst]. by apply keeps_push.
Qed.

Lemma chooseBase_covered pool template src k :
  covered (chooseBase pool template src k).1.
Proof.
  assert (Hempty : covered (mkBuilder [] ∅)).
  { intros c Hc. by apply elem_of_empty in Hc. }
  unfold chooseBase.
  destruct (list_find (λ item, category item = "Dress") pool)
    as [[i dress]|] eqn:Hfind.
  - apply list_find_Some in Hfind as (_ & Hcat & _).
    unfold ret. cbn [fst]. by apply (keeps_push dress "Dress").
  - rewrite bind_run.
    apply (addFromLayer_keeps pool (layer template 1)).
    by apply (addFromLayer_keeps pool (layer template 0)).
Qed.

Lemma addRequired_keeps pool cat b src k :
  let b' := (addRequired pool cat b src k).1 in
  keeps b b' ∧ (cat ∈ b_used b' ∨ hasCategory cat pool = []).
Proof.
  unfold addRequired. case_bool_decide as Hused.
  - split; [apply keeps_refl | by left].
  - destruct (hasCategory cat pool) as [|x0 xs] eqn:Hcands.
    + split; [apply keeps_refl | by right].
    + rewrite bind_run. unfold ret. cbn [fst]. split.
      * apply keeps_push.
        assert (H : (pick x0 (x0 :: xs) src k).1 ∈ hasCategory cat pool).
        { rewrite Hcands. by apply pick_elem_of. }
        by apply elem_of_hasCategory in H as [? _].
      * left. unfold push. cbn [b_used].
        apply elem_of_union. left. by apply elem_of_singleton.
Qed.

Lemma addAllRequired_keeps pool requiredCategories b src k :
  let b' := (addAllRequired pool requiredCategories b src k).1 in
  keeps b b' ∧
  ∀ cat, cat ∈ requiredCategories → cat ∈ b_used b' ∨ hasCategory cat pool = [].
Proof.
  revert b k. induction requiredCategories as [|cat rest IH]; intros b k.
  - split; [apply keeps_refl |]. intros cat Hcat. by apply elem_of_nil in Hcat.
  - cbn [addAllRequired]. rewrite bind_run.
    destruct (addRequired_keeps pool cat b src k) as [H1 Hcat].
    set (r1 := addRequired pool cat b src k) in *.
    destruct (IH r1.1 r1.2) as [H2 Hrest].
    split; [by eapply keeps_trans |].
    intros c [-> | Hc]%elem_of_cons; [| by apply Hrest].
    destruct Hcat as [Hcat | Hcat]; [| by right].
    left. by apply H2.
Qed.

Lemma addAccessory_keeps pool cat threshold b src k :
  keeps b (addAccessory pool cat threshold b src k).1.
Proof.
  unfold addAccessory.
  destruct (hasCategory cat pool) as [|x0 xs] eqn:Hcands; [apply keeps_refl |].
  rewrite bind_run.
  destruct (negb (Qle_bool (draw_val (random src k).1) threshold));
    [| apply keeps_refl].
  case_bool_decide as Hused; [apply keeps_refl |].
  cbn [negb andb]. rewrite bind_run. unfold ret. cbn [fst].
  apply keeps_push.
  assert (H : (pick x0 (x0 :: xs) src (random src k).2).1 ∈ hasCategory cat pool).
  { rewrite Hcands. by apply pick_elem_of. }
  by apply elem_of_hasCategory in H as [? _].
Qed.

(** A candidate holds an item of every required category that the pool
    offers. *)
Lemma generateSingleOutfitWithRequired_required pool template requiredCategories
    src k cat :
  cat ∈ requiredCategories → hasCategory cat pool ≠ [] →
  ∃ x, x ∈ (generateSingleOutfitWithRequired pool template
              requiredCategories src k).1 ∧ category x = cat.
Proof.
  intros Hcat Hpool. unfold generateSingleOutfitWithRequired.
  rewrite !bind_run. unfold ret. cbn [fst].
  pose proof (chooseBase_covered pool template src k) as H0.
  set (r0 := chooseBase pool template src k) in *.
  destruct (addAllRequired_keeps pool requiredCategories r0.1 src r0.2) as [H1 Hreq].
  set (r1 := addAllRequired pool requiredCategories r0.1 src r0.2) in *.
  pose proof (addAccessory_keeps pool "Shoes" 0.3 r1.1 src r1.2) as H2.
  set (r2 := addAccessory pool "Shoes" 0.3 r1.1 src r1.2) in *.
  pose proof (addAccessory_keeps pool "Hat" 0.5 r2.1 src r2.2) as H3.
  set (r3 := addAccessory pool "Hat" 0.5 r2.1 src r2.2) in *.
  pose proof (addAccessory_keeps pool "Other" 0.7 r3.1 src r3.2) as H4.
  set (r4 := addAccessory pool "Other" 0.7 r3.1 src r3.2) in *.
  destruct (keeps_trans _ _ _ (keeps_trans _ _ _ H2 H3) H4) as [Hcov Hsub].
  destruct H1 as [Hcov1 _].
  apply (Hcov (Hcov1 H0)). apply Hsub.
  by destruct (Hreq cat Hcat).
Qed.

(** X11. A required category is honoured whenever it can be: every
    recommendation returned holds an item of each required category of
    which an item passes the filters.
    Stated for an occasion and a weather that are no name inherited
    from [Object.prototype]. *)
Theorem X11_required_categories_included this clothingItems numRecommendations
    occasion weather requiredCategories src :
  plainFilter occasion = true → plainFilter weather = true →
  Forall (λ r, ∀ cat, cat ∈ requiredCategories →
      (∃ x, x ∈ filteredItems clothingItems occasion weather ∧ category x = cat) →
      ∃ y, y ∈ items r ∧ category y = cat)
    (generateOutfitRecommendations this clothingItems numRecommendations
       occasion weather requiredCategories src).
Proof.
  intros _ _.
  apply generateOutfitRecommendations_Forall.
  intros src' k outfit Hlen cat Hcat (x & Hx & Hxcat). cbn [items recommend].
  apply generateSingleOutfitWithRequired_required; [done |].
  intros Hnil. assert (H : x ∈ hasCategory cat (filteredItems clothingItems occasion weather))
    by by apply elem_of_hasCategory.
  rewrite Hnil in H. by apply elem_of_nil in H.
Qed.

Lemma X11_witness :
  Forall (λ r, ∀ cat, cat ∈ ["Hat"; "Jacket"] →
      (∃ x, x ∈ filteredItems [tshirtItem; jeansItem; hatItem; shoesItem] None None
            ∧ category x = cat) →
      ∃ y, y ∈ items r ∧ category y = cat)
    (generateOutfitRecommendations newService
       [tshirtItem; jeansItem; hatItem; shoesItem] 2
       None None ["Hat"; "Jacket"] (always draw_high)).
Proof.
  apply (X11_required_categories_included newService
           [tshirtItem; jeansItem; hatItem; shoesItem] 2%nat
           None None ["Hat"; "Jacket"] (always draw_high)); reflexivity.
Defined.

(** ** Wardrobes with a dress *)

Lemma classifyOutfitStyle_dress items x :
  x ∈ items → category x = "Dress" → classifyOutfitStyle items = "Elegant".
Proof.
  intros Hx Hcat. unfold classifyOutfitStyle, Js.includes.
  rewrite bool_decide_true; [done |].
  apply list_elem_of_fmap. exists x. split; [| done]. by rewrite Hcat.
Qed.

(** X12. When a dress passes the filters, every recommendation returned
    opens with the first such dress, in the order of the wardrobe, and
    is labelled "Elegant": the tops and bottoms of the wardrobe enter a
    recommendation only as required categories.
    Stated for an occasion and a weather that are no name inherited
    from [Object.prototype]. *)
Theorem X12_dress_takes_over this clothingItems numRecommendations
    occasion weather requiredCategories src i dress :
  plainFilter occasion = true → plainFilter weather = true →
  list_find (λ item, category item = "Dress")
    (filteredItems clothingItems occasion weather) = Some (i, dress) →
  Forall (λ r, head (items r) = Some dress ∧ style r = "Elegant")
    (generateOutfitRecommendations this clothingItems numRecommendations
       occasion weather requiredCategories src).
Proof.
  intros _ _.
  intros Hfind. apply generateOutfitRecommendations_Forall.
  intros src' k outfit Hlen. cbn [items style recommend].
  pose proof (first_dress_opens_candidate _ i dress requiredCategories src' k Hfind)
    as Hhead.
  fold outfit in Hhead. split; [exact Hhead |].
  apply list_find_Some in Hfind as (_ & Hcat & _).
  apply (classifyOutfitStyle_dress outfit dress); [| done].
  destruct outfit as [|y ys]; [done |]. injection Hhead as ->. by left.
Qed.

Lemma X12_witness :
  Forall (λ r, head (items r) = Some dressItem ∧ style r = "Elegant")
    (generateOutfitRecommendations newService
       [tshirtItem; dressItem; shoesItem; jeansItem] 3 None None []
       (alternate draw_high draw_zero)).
Proof.
  apply (X12_dress_takes_over newService [tshirtItem; dressItem; shoesItem; jeansItem]
           3%nat None None [] (alternate draw_high draw_zero) 1%nat dressItem);
    reflexivity.
Defined.

Lemma addAllRequired_nothing_to_add pool requiredCategories b src k :
  (∀ cat, cat ∈ requiredCategories → cat ∈ b_used b ∨ hasCategory cat pool = []) →
  addAllRequired pool requiredCategories b src k = (b, k).
Proof.
  induction requiredCategories as [|cat rest IH]; intros Hreq; [done |].
  cbn [addAllRequired]. rewrite bind_run.
  assert (H : addRequired pool cat b src k = (b, k)).
  { unfold addRequired. destruct (Hreq cat) as [Hused | Hnone]; [by left | |].
    - by rewrite bool_decide_true.
    - rewrite Hnone. by case_bool_decide. }
  rewrite H. cbn [fst snd]. apply IH. intros c Hc. apply Hreq. by right.
Qed.

Lemma addAccessory_none pool cat threshold b src k :
  hasCategory cat pool = [] → addAccessory pool cat threshold b src k = (b, k).
Proof. intros H. unfold addAccessory. by rewrite H. Qed.

(** X13. A dress without accessories silences the service: when a dress
    passes the filters, no item of category "Shoes", "Hat" or "Other"
    does, and every required category is "Dress" or a category of which
    no item passes, the candidate of every attempt is the dress alone and
    no recommendation is returned, whatever tops and bottoms the
    wardrobe holds.
    Stated for an occasion and a weather that are no name inherited
    from [Object.prototype]. *)
Theorem X13_dress_without_accessories_yields_nothing this clothingItems
    numRecommendations occasion weather requiredCategories src i dress :
  plainFilter occasion = true → plainFilter weather = true →
  let pool := filteredItems clothingItems occasion weather in
  list_find (λ item, category item = "Dress") pool = Some (i, dress) →
  hasCategory "Shoes" pool = [] →
  hasCategory "Hat" pool = [] →
  hasCategory "Other" pool = [] →
  (∀ cat, cat ∈ requiredCategories → cat = "Dress" ∨ hasCategory cat pool = []) →
  (∀ src' k, (generateSingleOutfitWithRequired pool outfitTemplate
                requiredCategories src' k).1 = [dress]) ∧
  generateOutfitRecommendations this clothingItems numRecommendations
    occasion weather requiredCategories src = [].
Proof.
  intros _ _.
  intros pool Hfind Hshoes Hhat Hother Hreq.
  assert (Hgen : ∀ src' k, (generateSingleOutfitWithRequired pool outfitTemplate
                              requiredCategories src' k).1 = [dress]).
  { intros src' k. unfold generateSingleOutfitWithRequired.
    rewrite bind_run, (chooseBase_dress pool outfitTemplate i dress src' k Hfind).
    cbn [fst snd].
    rewrite bind_run, addAllRequired_nothing_to_add.
    - cbn [fst snd].
      rewrite bind_run, (addAccessory_none pool "Shoes") by done. cbn [fst snd].
      rewrite bind_run, (addAccessory_none pool "Hat") by done. cbn [fst snd].
      rewrite bind_run, (addAccessory_none pool "Other") by done. done.
    - intros cat Hcat. destruct (Hreq cat Hcat) as [-> | Hnone]; [| by right].
      left. cbn [b_used]. by apply elem_of_singleton. }
  split; [exact Hgen |].
  assert (Hall : Forall (λ _, False)
            (generateOutfitRecommendations this clothingItems numRecommendations
               occasion weather requiredCategories src)).
  { apply generateOutfitRecommendations_Forall. intros src' k outfit Hlen.
    unfold outfit in Hlen. fold pool in Hlen. rewrite Hgen in Hlen.
    simpl in Hlen. lia. }
  destruct (generateOutfitRecommendations this clothingItems numRecommendations
              occasion weather requiredCategories src) as [|r rs]; [done |].
  by apply Forall_cons in Hall as [? _].
Qed.

Lemma X13_witness :
  generateOutfitRecommendations newService [tshirtItem; jeansItem; dressItem] 3
    None None ["Dress"; "Hat"] (always draw_high) = [].
Proof.
  apply (X13_dress_without_accessories_yields_nothing newService
           [tshirtItem; jeansItem; dressItem] 3%nat None None ["Dress"; "Hat"]
           (always draw_high) 2%nat dressItem);
    try reflexivity.
  intros cat Hcat.
  apply elem_of_cons in Hcat as [-> | Hcat]; [by left |].
  apply elem_of_cons in Hcat as [-> | Hcat]; [by right |].
  by apply elem_of_nil in Hcat.
Defined.

(** ** The colour palette *)

Lemma palette_of_canonical c :
  c ∈ colors →
  let pal := default ["gray"; "white"; "black"] (paletteMap !! c) in
  is_Some (paletteMap !! c) ∧
  length pal = 4%nat ∧ head pal = Some c ∧
  Forall (λ x, x ∈ colors) pal ∧ NoDup pal.
Proof.
  revert c. apply elem_of_colors; cbv zeta;
    (split; [eexists; reflexivity |]);
    (split; [reflexivity |]); (split; [reflexivity |]);
    (split; apply (bool_decide_unpack _); vm_compute; exact I).
Qed.

(** X14. [getColorPalette] on any item: the dominant colour is
    canonical, the palette is that of the table (the fallback of three
    colours is never used): four different canonical colours of which
    the first is the dominant one; brightness and saturation stay in
    [0, 1], brightness being 1 for white and 0 for black only.
    Stated for a colour that, in lower case, is no name inherited from
    [Object.prototype]. *)
Theorem X14_palette_well_formed (item : ClothingItem) :
  ownKey (Js.toLowerCase (color item)) = true →
  let p := getColorPalette item in
  dominant p = extractColorFromItem item ∧
  dominant p ∈ colors ∧
  paletteMap !! dominant p = Some (palette p) ∧
  length (palette p) = 4%nat ∧
  head (palette p) = Some (dominant p) ∧
  Forall (λ x, x ∈ colors) (palette p) ∧
  NoDup (palette p) ∧
  (brightness p = 1 ∧ dominant p = "white" ∨
   brightness p = 0 ∧ dominant p = "black" ∨
   brightness p = 0.5 ∧ dominant p ≠ "white" ∧ dominant p ≠ "black") ∧
  (saturation p = 0.8 ∨ saturation p = 0.3).
Proof.
  intros _.
  cbv zeta. unfold getColorPalette.
  cbn [dominant palette brightness saturation].
  pose proof (extractColorFromItem_canonical item) as Hc.
  set (c := extractColorFromItem item) in *.
  destruct (palette_of_canonical c Hc) as ([pal Hpal] & Hlen & Hhead & Hall & Hnd).
  rewrite Hpal in *. cbn [default] in *.
  repeat (split; [done |]).
  split.
  - destruct (String.eqb_spec c "white") as [-> | Hw]; [by left |].
    destruct (String.eqb_spec c "black") as [-> | Hb]; [right; by left |].
    right. right. done.
  - destruct (Js.includes _ c); [by left | by right].
Qed.

Lemma X14_witness :
  dominant (getColorPalette (mkItem "u" "Jacket" "Navy")) ∈ colors.
Proof.
  destruct (X14_palette_well_formed (mkItem "u" "Jacket" "Navy")) as (_ & Hin & _).
  - reflexivity.
  - exact Hin.
Defined.

(** ** Feedback *)

Lemma afterFeedback_app this actions actions' :
  afterFeedback this (actions ++ actions')
  = afterFeedback (afterFeedback this actions) actions'.
Proof. unfold afterFeedback. apply foldl_app. Qed.

(** X15. How feedback accumulates: without a load from the store, the
    ratings held by the instance are those it held before followed by
    the ratings recorded since, in order, none dropped or altered; a
    load that finds ratings in the store replaces whatever the instance
    held, including the ratings recorded while the load was pending. *)
Theorem X15_ratings_accumulate this actions :
  (forallb (λ a, negb (isLoad a)) actions = true →
   outfitRatings (afterFeedback this actions)
   = outfitRatings this ++ ratingsOf actions) ∧
  (∀ stored preferences,
     outfitRatings (afterFeedback this
                      (actions ++ [LoadUserPreferences (Some stored) preferences]))
     = stored).
Proof.
  split.
  - revert this. induction actions as [|a actions IH]; intros this Hno.
    + unfold afterFeedback, ratingsOf. simpl. by rewrite app_nil_r.
    + cbn [forallb] in Hno. apply andb_prop in Hno as [Ha Hno].
      change (afterFeedback this (a :: actions))
        with (afterFeedback (act this a) actions).
      rewrite (IH _ Hno).
      destruct a as [id r now | c p | rs ps]; [| | done].
      * cbn [act rateOutfit outfitRatings]. unfold ratingsOf. cbn [omap].
        by rewrite <- app_assoc.
      * done.
  - intros stored preferences. by rewrite afterFeedback_app.
Qed.

Lemma X15_witness :
  outfitRatings (afterFeedback newService
                   [RateOutfit "a|b" 5 10; UpdateStylePreferences "Hat" 0.5;
                    RateOutfit "a|c" 2 20])
  = outfitRatings newService
    ++ ratingsOf [RateOutfit "a|b" 5 10; UpdateStylePreferences "Hat" 0.5;
                  RateOutfit "a|c" 2 20].
Proof.
  destruct (X15_ratings_accumulate newService
              [RateOutfit "a|b" 5 10; UpdateStylePreferences "Hat" 0.5;
               RateOutfit "a|c" 2 20]) as [H _].
  apply H. reflexivity.
Defined.

(** ** The required categories of the recommendations screen *)

Lemma elem_of_toggleCategory cat prev c :
  c ∈ toggleCategory cat prev ↔ (c ≠ cat ∧ c ∈ prev) ∨ (c = cat ∧ cat ∉ prev).
Proof.
  unfold toggleCategory, Js.includes. case_bool_decide as Hin.
  - rewrite list_elem_of_filter. split; [by left |].
    intros [H | [-> H]]; done.
  - rewrite elem_of_app, list_elem_of_singleton. split.
    + intros [H | ->]; [| by right]. left. split; [| done]. by intros ->.
    + intros [[_ H] | [-> _]]; [by left | by right].
Qed.

Lemma NoDup_toggleCategory cat prev : NoDup prev → NoDup (toggleCategory cat prev).
Proof.
  intros Hnd. unfold toggleCategory, Js.includes. case_bool_decide as Hin.
  - by apply NoDup_filter.
  - apply NoDup_app. split; [done |]. split; [| apply NoDup_singleton].
    intros c Hc ->%list_elem_of_singleton. done.
Qed.

Lemma toggles_parity (cats prev : list string) (c : string) :
  bool_decide (c ∈ foldl (λ prev cat, toggleCategory cat prev) prev cats)
  = xorb (bool_decide (c ∈ prev)) (Nat.odd (length (filter (λ x, x = c) cats))).
Proof.
  revert prev. induction cats as [|cat cats IH]; intros prev.
  - simpl. by rewrite xorb_false_r.
  - cbn [foldl]. rewrite IH, filter_cons.
    assert (Hstep : bool_decide (c ∈ toggleCategory cat prev)
                    = xorb (bool_decide (c ∈ prev)) (bool_decide (cat = c))).
    { apply eq_true_iff_eq. rewrite bool_decide_eq_true, elem_of_toggleCategory.
      destruct (decide (cat = c)) as [-> | Hne].
      - rewrite (bool_decide_true (c = c)) by done.
        destruct (decide (c ∈ prev)) as [Hin | Hin].
        + rewrite bool_decide_true by done. simpl. split; [| done].
          intros [[H _] | [_ H]]; done.
        + rewrite bool_decide_false by done. simpl. split; [done |].
          intros _. by right.
      - rewrite (bool_decide_false (cat = c)) by done. rewrite xorb_false_r.
        rewrite bool_decide_eq_true. split.
        + intros [[_ H] | [H _]]; [done | by subst].
        + intros H. left. split; [by intros -> | done]. }
    rewrite Hstep. destruct (decide (cat = c)) as [Heq | Hne].
    + rewrite (bool_decide_true (cat = c)) by done. cbn [length].
      rewrite Nat.odd_succ, <- Nat.negb_odd.
      by destruct (bool_decide (c ∈ prev)), (Nat.odd _).
    + rewrite (bool_decide_false (cat = c)) by done. by rewrite xorb_false_r.
Qed.

(** X16. The required categories of the screen, after any sequence of
    taps from the empty selection: no category is listed twice, and a
    category is required exactly when it was tapped an odd number of
    times. *)
Theorem X16_required_categories_toggle (cats : list string) :
  NoDup (afterToggles cats) ∧
  ∀ c, c ∈ afterToggles cats
       ↔ Nat.odd (length (filter (λ x, x = c) cats)) = true.
Proof.
  split.
  - unfold afterToggles.
    assert (H : ∀ prev, NoDup prev →
                NoDup (foldl (λ prev cat, toggleCategory cat prev) prev cats)).
    { induction cats as [|cat cats IH]; intros prev Hnd; [done |].
      cbn [foldl]. by apply IH, NoDup_toggleCategory. }
    apply H. constructor.
  - intros c. unfold afterToggles.
    pose proof (toggles_parity cats [] c) as Hp.
    rewrite (bool_decide_false (c ∈ [])) in Hp by apply not_elem_of_nil.
    rewrite xorb_false_l in Hp. rewrite <- Hp.
    symmetry. apply bool_decide_eq_true.
Qed.

(** ** The key of an outfit *)

Lemma String_leb_trans s1 s2 s3 :
  String.leb s1 s2 = true → String.leb s2 s3 = true → String.leb s1 s3 = true.
Proof.
  unfold String.leb. revert s2 s3.
  induction s1 as [|a s1 IH]; intros [|b s2] [|c s3]; simpl; try done.
  unfold Ascii.compare.
  destruct (N.compare_spec (Ascii.N_of_ascii a) (Ascii.N_of_ascii b)) as [Hab|Hab|Hab],
           (N.compare_spec (Ascii.N_of_ascii b) (Ascii.N_of_ascii c)) as [Hbc|Hbc|Hbc],
           (N.compare_spec (Ascii.N_of_ascii a) (Ascii.N_of_ascii c)) as [Hac|Hac|Hac];
    try done; try (exfalso; lia).
  apply IH.
Qed.

Section SortBy.
Context {A : Type} (before : A → A → bool).
Hypothesis before_total : ∀ x y, before x y = true ∨ before y x = true.
Hypothesis before_trans :
  ∀ x y z, before x y = true → before y z = true → before x z = true.

Lemma insert_sorted_by_Permutation x (l : list A) :
  Js.insert_sorted before x l ≡ₚ x :: l.
Proof.
  induction l as [|y l IH]; simpl; [done |].
  destruct (before x y); [done |].
  rewrite IH. apply Permutation_swap.
Qed.

Lemma sort_by_Permutation (l : list A) : Js.sort before l ≡ₚ l.
Proof.
  induction l as [|x l IH]; simpl; [done |].
  by rewrite insert_sorted_by_Permutation, IH.
Qed.

Lemma insert_sorted_by_StronglySorted x (l : list A) :
  StronglySorted (λ a b, before a b = true) l →
  StronglySorted (λ a b, before a b = true) (Js.insert_sorted before x l).
Proof.
  induction 1 as [|y l Hl IH Hy]; simpl.
  - repeat constructor.
  - destruct (before x y) eqn:Hxy.
    + constructor; [by constructor |].
      constructor; [done |].
      eapply Forall_impl; [exact Hy |]. simpl. intros z Hz. by eapply before_trans.
    + constructor; [done |].
      rewrite insert_sorted_by_Permutation.
      constructor; [| done].
      destruct (before_total x y) as [H | H]; [congruence | done].
Qed.

Lemma sort_by_StronglySorted (l : list A) :
  StronglySorted (λ a b, before a b = true) (Js.sort before l).
Proof.
  induction l as [|x l IH]; simpl; [constructor |].
  by apply insert_sorted_by_StronglySorted.
Qed.

End SortBy.

Lemma sort_strings_Permutation_eq (l1 l2 : list string) :
  l1 ≡ₚ l2 → Js.sort_strings l1 = Js.sort_strings l2.
Proof.
  intros Hperm. unfold Js.sort_strings.
  apply (StronglySorted_unique_strong (λ a b, String.leb a b = true)).
  - intros x y _ _ Hxy Hyx. by apply String.leb_antisym.
  - apply sort_by_StronglySorted; [apply String.leb_total | apply String_leb_trans].
  - apply sort_by_StronglySorted; [apply String.leb_total | apply String_leb_trans].
  - by rewrite !sort_by_Permutation.
Qed.

(** X17. The key of an outfit does not depend on the order of its
    items: two lists holding the same items share their key, so the
    service counts them as one outfit and the screen files a like or a
    dislike of either under the same entry. *)
Theorem X17_outfit_key_ignores_order (items1 items2 : list ClothingItem) :
  items1 ≡ₚ items2 → outfitKey items1 = outfitKey items2.
Proof.
  intros Hperm. unfold outfitKey. f_equal.
  apply sort_strings_Permutation_eq. by apply fmap_Permutation.
Qed.

Lemma X17_witness :
  outfitKey [jeansItem; tshirtItem; shoesItem]
  = outfitKey [shoesItem; jeansItem; tshirtItem].
Proof.
  apply (X17_outfit_key_ignores_order [jeansItem; tshirtItem; shoesItem]
           [shoesItem; jeansItem; tshirtItem]).
  change [jeansItem; tshirtItem; shoesItem] with ([jeansItem; tshirtItem] ++ [shoesItem]).
  symmetry. apply Permutation_cons_append.
Defined.

(** * Properties of the outfit creator screen *)

Lemma wrap_next (c n : Z) :
  (0 ≤ c < n)%Z → ((c + 1 + n) mod n = if (c + 1 =? n)%Z then 0 else c + 1)%Z.
Proof.
  intros Hc. symmetry. destruct (Z.eqb_spec (c + 1) n) as [Heq | Hne].
  - apply (Z.mod_unique _ _ 2); lia.
  - apply (Z.mod_unique _ _ 1); lia.
Qed.

Lemma wrap_previous (c n : Z) :
  (0 ≤ c < n)%Z → ((c + -1 + n) mod n = if (c =? 0)%Z then n - 1 else c - 1)%Z.
Proof.
  intros Hc. symmetry. destruct (Z.eqb_spec c 0) as [Heq | Hne].
  - apply (Z.mod_unique _ _ 0); lia.
  - apply (Z.mod_unique _ _ 1); lia.
Qed.

(** One press of an arrow, on a section whose category has items. *)
Lemma updateSectionIndex_step clothingItems sections idx direction section :
  sections !! idx = Some section →
  hasCategory (sectionCategory section) clothingItems ≠ [] →
  (0 ≤ sectionIndex section)%Z →
  direction = 1%Z ∨ direction = (-1)%Z →
  let n := Z.of_nat (length (hasCategory (sectionCategory section) clothingItems)) in
  let current := Z.min (sectionIndex section) (n - 1) in
  let next := (if (direction =? 1)%Z
               then (if (current + 1 =? n)%Z then 0 else current + 1)
               else (if (current =? 0)%Z then n - 1 else current - 1))%Z in
  updateSectionIndex clothingItems sections idx direction
  = Some (<[idx := mkSection (sectionCategory section) next]> sections) ∧
  (0 ≤ next < n)%Z.
Proof.
  intros Hsec Hne Hidx Hdir n current next.
  assert (Hn : (0 < n)%Z).
  { unfold n. destruct (hasCategory _ _); [done | simpl; lia]. }
  assert (Hcur : (0 ≤ current < n)%Z) by (unfold current; lia).
  assert (Hrem : Z.rem (current + direction + n) n = next).
  { rewrite Z.rem_mod_nonneg by lia. unfold next.
    destruct Hdir as [-> | ->].
    - change (1 =? 1)%Z with true. cbv iota. by apply wrap_next.
    - change (-1 =? 1)%Z with false. cbv iota. by apply wrap_previous. }
  split.
  - unfold updateSectionIndex. rewrite Hsec.
    destruct (length (hasCategory (sectionCategory section) clothingItems) =? 0)%nat
      eqn:Hz.
    + apply Nat.eqb_eq in Hz. unfold n in Hn. lia.
    + fold n. fold current. by rewrite Hrem.
  - unfold next. destruct (direction =? 1)%Z.
    + destruct (Z.eqb_spec (current + 1) n); lia.
    + destruct (Z.eqb_spec current 0); lia.
Qed.

(** X18. An arrow of the outfit creator, pressed on a section whose
    category has items and whose index is not negative, moves the index
    by one inside the range of these items and wraps around: past the
    last item it returns to the first, before the first it goes to the
    last. An index left beyond the range by deletions is first brought
    back to the last item. Only the section pressed changes. *)
Theorem X18_arrows_wrap_around clothingItems sections idx direction section :
  sections !! idx = Some section →
  hasCategory (sectionCategory section) clothingItems ≠ [] →
  (0 ≤ sectionIndex section)%Z →
  direction = 1%Z ∨ direction = (-1)%Z →
  let n := Z.of_nat (length (hasCategory (sectionCategory section) clothingItems)) in
  let current := Z.min (sectionIndex section) (n - 1) in
  let next := (if (direction =? 1)%Z
               then (if (current + 1 =? n)%Z then 0 else current + 1)
               else (if (current =? 0)%Z then n - 1 else current - 1))%Z in
  ∃ sections',
    updateSectionIndex clothingItems sections idx direction = Some sections' ∧
    sections' !! idx = Some (mkSection (sectionCategory section) next) ∧
    (0 ≤ next < n)%Z ∧
    (∀ other, other ≠ idx → sections' !! other = sections !! other) ∧
    length sections' = length sections.
Proof.
  intros Hsec Hne Hidx Hdir n current next.
  destruct (updateSectionIndex_step clothingItems sections idx direction section
              Hsec Hne Hidx Hdir) as [Hstep Hrange].
  fold n current next in Hstep, Hrange.
  exists (<[idx := mkSection (sectionCategory section) next]> sections).
  split; [exact Hstep |]. split.
  - apply list_lookup_insert_eq. by eapply lookup_lt_Some.
  - split; [exact Hrange |]. split.
    + intros other Hother. by apply list_lookup_insert_ne.
    + apply length_insert.
Qed.

Lemma X18_witness :
  ∃ sections',
    updateSectionIndex [tshirtItem; jeansItem; mkItem "t2" "T-shirt" "blue"]
      initialSections 0 1 = Some sections' ∧
    sections' !! 0%nat = Some (mkSection "T-shirt" 1).
Proof.
  destruct (X18_arrows_wrap_around [tshirtItem; jeansItem; mkItem "t2" "T-shirt" "blue"]
              initialSections 0%nat 1%Z (mkSection "T-shirt" 0))
    as (sections' & Hstep & Hpressed & _).
  - reflexivity.
  - discriminate.
  - simpl. lia.
  - by left.
  - exists sections'. split; [exact Hstep | exact Hpressed].
Defined.

(** X19. Next then previous, and previous then next, bring a section
    whose index is in range back to where it was: the two arrows undo
    each other, also across the wrap. *)
Theorem X19_arrows_undo_each_other clothingItems sections idx section :
  sections !! idx = Some section →
  (0 ≤ sectionIndex section
   < Z.of_nat (length (hasCategory (sectionCategory section) clothingItems)))%Z →
  updateSectionIndex clothingItems sections idx 1
    ≫= (λ s, updateSectionIndex clothingItems s idx (-1)) = Some sections ∧
  updateSectionIndex clothingItems sections idx (-1)
    ≫= (λ s, updateSectionIndex clothingItems s idx 1) = Some sections.
Proof.
  intros Hsec Hrange.
  assert (Hne : hasCategory (sectionCategory section) clothingItems ≠ []).
  { intros H. rewrite H in Hrange. simpl in Hrange. lia. }
  assert (Hlt : (idx < length sections)%nat) by by eapply lookup_lt_Some.
  set (n := Z.of_nat (length (hasCategory (sectionCategory section) clothingItems)))
    in *.
  assert (Hback : ∀ d1 d2 : Z,
            (d1 = 1 ∧ d2 = -1)%Z ∨ (d1 = -1 ∧ d2 = 1)%Z →
            updateSectionIndex clothingItems sections idx d1
              ≫= (λ s, updateSectionIndex clothingItems s idx d2) = Some sections).
  { intros d1 d2 Hd.
    destruct (updateSectionIndex_step clothingItems sections idx d1 section
                Hsec Hne ltac:(lia) ltac:(lia)) as [-> H1].
    cbn [mbind option_bind]. fold n in H1 |- *.
    set (i1 := (if (d1 =? 1)%Z then _ else _)) in *.
    destruct (updateSectionIndex_step clothingItems
                (<[idx := mkSection (sectionCategory section) i1]> sections) idx d2
                (mkSection (sectionCategory section) i1)) as [-> _].
    - by apply list_lookup_insert_eq.
    - done.
    - cbn [sectionIndex]. lia.
    - lia.
    - cbn [sectionCategory sectionIndex]. fold n.
      rewrite list_insert_insert_eq. f_equal. apply list_insert_id.
      rewrite Hsec. f_equal. destruct section as [cat i]. f_equal.
      cbn [sectionIndex] in *. unfold i1.
      destruct Hd as [[-> ->] | [-> ->]].
      + change (1 =? 1)%Z with true. change (-1 =? 1)%Z with false. cbv iota.
        destruct (Z.eqb_spec (Z.min i (n - 1) + 1) n);
          match goal with |- context [Z.eqb ?a ?b] =>
            destruct (Z.eqb_spec a b) end; lia.
      + change (1 =? 1)%Z with true. change (-1 =? 1)%Z with false. cbv iota.
        destruct (Z.eqb_spec (Z.min i (n - 1)) 0);
          match goal with |- context [Z.eqb ?a ?b] =>
            destruct (Z.eqb_spec a b) end; lia. }
  split; apply Hback; lia.
Qed.

Lemma X19_witness :
  updateSectionIndex [tshirtItem; jeansItem; mkItem "t2" "T-shirt" "blue"]
    initialSections 0 (-1)
    ≫= (λ s, updateSectionIndex [tshirtItem; jeansItem; mkItem "t2" "T-shirt" "blue"]
               s 0 1)
  = Some initialSections.
Proof.
  apply (X19_arrows_undo_each_other
           [tshirtItem; jeansItem; mkItem "t2" "T-shirt" "blue"]
           initialSections 0%nat (mkSection "T-shirt" 0)).
  - reflexivity.
  - simpl. lia.
Defined.

(** X20. What a section shows and [handleSaveOutfit] stores: nothing
    when the wardrobe has no item of its category; otherwise, for an
    index that is not negative, always an item of the wardrobe of that
    category: the item at the index, or the last one when the index has
    been left beyond the range. *)
Theorem X20_shown_item_exists clothingItems section :
  (0 ≤ sectionIndex section)%Z →
  let itemsForCat := hasCategory (sectionCategory section) clothingItems in
  (itemsForCat = [] → shownItem clothingItems section = None) ∧
  (itemsForCat ≠ [] →
   ∃ x, shownItem clothingItems section = Some x ∧
        x ∈ clothingItems ∧ category x = sectionCategory section ∧
        ((sectionIndex section < Z.of_nat (length itemsForCat))%Z →
         itemsForCat !! Z.to_nat (sectionIndex section) = Some x) ∧
        ((Z.of_nat (length itemsForCat) ≤ sectionIndex section)%Z →
         last itemsForCat = Some x)).
Proof.
  intros Hidx itemsForCat. unfold shownItem. fold itemsForCat. split.
  - intros ->. done.
  - intros Hne.
    assert (Hlen : (0 < length itemsForCat)%nat).
    { destruct itemsForCat; [done | simpl; lia]. }
    destruct (0 <? length itemsForCat)%nat eqn:Hpos;
      [| apply Nat.ltb_ge in Hpos; lia].
    unfold Js.index.
    set (current := Z.min (sectionIndex section) (Z.of_nat (length itemsForCat) - 1)).
    destruct (Z.ltb_spec current 0) as [Hneg | _]; [unfold current in Hneg; lia |].
    destruct (lookup_lt_is_Some_2 itemsForCat (Z.to_nat current)) as [x Hx];
      [unfold current; lia |].
    exists x. split; [done |].
    assert (Hin : x ∈ itemsForCat) by by eapply list_elem_of_lookup_2.
    apply elem_of_hasCategory in Hin as [Hcat Hin].
    split; [done |]. split; [done |]. split.
    + intros Hlt. rewrite <- Hx. f_equal. unfold current. lia.
    + intros Hge. rewrite last_lookup, <- Hx. f_equal. unfold current. lia.
Qed.

Lemma X20_witness :
  shownItem [tshirtItem; jeansItem; mkItem "t2" "T-shirt" "blue"]
    (mkSection "T-shirt" 5)
  = Some (mkItem "t2" "T-shirt" "blue").
Proof.
  destruct (X20_shown_item_exists [tshirtItem; jeansItem; mkItem "t2" "T-shirt" "blue"]
              (mkSection "T-shirt" 5)) as [_ H].
  - simpl. lia.
  - destruct H as (x & Hshown & _ & _ & _ & Hlast); [discriminate |].
    rewrite Hshown. rewrite <- Hlast; [reflexivity | simpl; lia].
Defined.

(** X21. The number of sections stays between 1 and [MAX_SECTIONS]:
    [addSection] appends one section below the maximum and does nothing
    at the maximum, [removeSection] removes the section of an existing
    position unless it is the only one, and the arrows change no length. *)
Theorem X21_section_count_invariant (sections : list OutfitSection) :
  (1 ≤ length sections ≤ MAX_SECTIONS)%nat →
  (1 ≤ length (addSection sections) ≤ MAX_SECTIONS)%nat ∧
  (length (addSection sections)
   = if (length sections <? MAX_SECTIONS)%nat then S (length sections)
     else length sections) ∧
  (∀ idx, (1 ≤ length (removeSection sections idx) ≤ MAX_SECTIONS)%nat ∧
          ((idx < length sections)%nat → (1 < length sections)%nat →
           length (removeSection sections idx) = (length sections - 1)%nat)) ∧
  (∀ clothingItems idx direction sections',
     updateSectionIndex clothingItems sections idx direction = Some sections' →
     length sections' = length sections).
Proof.
  intros Hlen. unfold addSection, removeSection, MAX_SECTIONS in *.
  split; [| split; [| split]].
  - destruct (Nat.ltb_spec (length sections) 4); [| lia].
    rewrite length_app. simpl. lia.
  - destruct (Nat.ltb_spec (length sections) 4); [| done].
    rewrite length_app. simpl. lia.
  - intros idx. destruct (Nat.ltb_spec 1 (length sections)) as [Hgt | Hle].
    + destruct (decide (idx < length sections)%nat) as [Hin | Hout].
      * rewrite length_delete by by apply lookup_lt_is_Some_2. lia.
      * rewrite delete_take_drop, take_ge, drop_ge, app_nil_r by lia. lia.
    + lia.
  - intros clothingItems idx direction sections' H. unfold updateSectionIndex in H.
    destruct (sections !! idx) as [section|]; [| done].
    destruct (length _ =? 0)%nat; injection H as <-; [done |].
    apply length_insert.
Qed.

Lemma X21_witness :
  (1 ≤ length (addSection initialSections) ≤ MAX_SECTIONS)%nat ∧
  length (addSection (addSection initialSections)) = 4%nat.
Proof.
  destruct (X21_section_count_invariant initialSections) as (H & _).
  - unfold MAX_SECTIONS. simpl. lia.
  - split; [exact H | reflexivity].
Defined.

(** * Properties of the wardrobe insights *)

Section Counting.
Context (key : ClothingItem → string).

Lemma countUp_lookup counts k c :
  countUp counts k !! c
  = if decide (k = c) then Some (default 0 (counts !! c) + 1)%nat else counts !! c.
Proof.
  unfold countUp. destruct (decide (k = c)) as [-> | Hne].
  - by rewrite lookup_insert_eq.
  - by rewrite lookup_insert_ne.
Qed.

Lemma counts_lookup (items : list ClothingItem) counts c :
  let n := length (filter (λ item, key item = c) items) in
  foldl (λ counts item, countUp counts (key item)) counts items !! c
  = if (n =? 0)%nat then counts !! c else Some (default 0 (counts !! c) + n)%nat.
Proof.
  revert counts. induction items as [|x items IH]; intros counts; [done |].
  cbn [foldl]. cbv zeta in IH |- *. rewrite IH, filter_cons, countUp_lookup.
  destruct (decide (key x = c)) as [Heq | Hne]; [| done].
  cbn [length default].
  destruct (length (filter _ items)) as [|n]; simpl; f_equal; lia.
Qed.

Lemma counts_dom (items : list ClothingItem) (counts : gmap string nat) :
  dom (foldl (λ counts item, countUp counts (key item)) counts items)
  = dom counts ∪ list_to_set (key <$> items).
Proof.
  revert counts. induction items as [|x items IH]; intros counts.
  - simpl. by rewrite union_empty_r_L.
  - cbn [foldl]. rewrite IH. unfold countUp. rewrite dom_insert_L.
    rewrite fmap_cons. cbn [list_to_set].
    rewrite (comm_L (∪) {[key x]} (dom counts)).
    by rewrite <- (assoc_L (∪)).
Qed.

Lemma size_list_to_set_le (l : list string) :
  (size (list_to_set l : gset string) ≤ length l)%nat.
Proof.
  induction l as [|x l IH]; [done |].
  cbn [list_to_set length]. rewrite size_union_alt, size_singleton.
  pose proof (subseteq_size (list_to_set l ∖ {[x]}) (list_to_set l : gset string))
    as H.
  assert (Hsub : (list_to_set l ∖ {[x]} : gset string) ⊆ list_to_set l)
    by apply subseteq_difference_l, reflexivity.
  specialize (H Hsub). lia.
Qed.

End Counting.

(** X22. The counting loop of the insights panel: the count kept for a
    category (for a colour) is the number of items of that category (of
    that colour, as typed), no entry is kept for a category or a colour
    the wardrobe lacks, and the number of categories shown is the number
    of different categories present, at most the number of items.
    Stated for a wardrobe in which no category and no colour is a name
    inherited from [Object.prototype]. *)
Theorem X22_insight_counts (clothingItems : list ClothingItem) (c : string) :
  forallb plainlyKeyed clothingItems = true →
  categoryCounts clothingItems !! c
  = (let n := length (hasCategory c clothingItems) in
     if (n =? 0)%nat then None else Some n) ∧
  colorCounts clothingItems !! c
  = (let n := length (filter (λ item, color item = c) clothingItems) in
     if (n =? 0)%nat then None else Some n) ∧
  dom (categoryCounts clothingItems) = list_to_set (category <$> clothingItems) ∧
  (size (categoryCounts clothingItems) ≤ length clothingItems)%nat.
Proof.
  intros _.
  unfold categoryCounts, colorCounts, hasCategory.
  split; [| split; [| split]].
  - rewrite (counts_lookup category). by rewrite lookup_empty.
  - rewrite (counts_lookup color). by rewrite lookup_empty.
  - rewrite (counts_dom category), dom_empty_L. by rewrite union_empty_l_L.
  - rewrite <- (size_dom (D := gset string)), (counts_dom category), dom_empty_L,
      union_empty_l_L.
    etrans; [apply size_list_to_set_le |]. by rewrite length_fmap.
Qed.

Lemma X22_witness :
  categoryCounts [tshirtItem; jeansItem; mkItem "t2" "T-shirt" "blue"] !! "T-shirt"
  = Some 2%nat.
Proof.
  destruct (X22_insight_counts [tshirtItem; jeansItem; mkItem "t2" "T-shirt" "blue"]
              "T-shirt") as (Hcount & _).
  - reflexivity.
  - rewrite Hcount. reflexivity.
Defined.

(** X23. The tips of the insights panel are never empty; a wardrobe of
    fewer than ten items is always told to add items, one of fewer than
    five items to add variety and one of fewer than four to add colours,
    since it cannot hold five categories or four colours; the message
    "well-balanced" is the whole answer exactly when the wardrobe has at
    least ten items, five categories and four colours.
    Stated for a wardrobe in which no category and no colour is a name
    inherited from [Object.prototype]. *)
Theorem X23_wardrobe_tips (clothingItems : list ClothingItem) :
  forallb plainlyKeyed clothingItems = true →
  let tips := wardrobeTips clothingItems (categoryCounts clothingItems)
                (colorCounts clothingItems) in
  tips ≠ [] ∧
  ((length clothingItems < 10)%nat →
   "Add more items to get better recommendations" ∈ tips) ∧
  ((length clothingItems < 5)%nat →
   "Consider adding more variety to your wardrobe" ∈ tips) ∧
  ((length clothingItems < 4)%nat →
   "Try incorporating more colors for versatile outfits" ∈ tips) ∧
  (tips = ["Your wardrobe looks well-balanced!"]
   ↔ (10 ≤ length clothingItems)%nat ∧
     (5 ≤ size (categoryCounts clothingItems))%nat ∧
     (4 ≤ size (colorCounts clothingItems))%nat).
Proof.
  intros _.
  assert (Hcat : (size (categoryCounts clothingItems) ≤ length clothingItems)%nat).
  { unfold categoryCounts.
    rewrite <- (size_dom (D := gset string)), (counts_dom category), dom_empty_L,
      union_empty_l_L.
    etrans; [apply size_list_to_set_le |]. by rewrite length_fmap. }
  assert (Hcol : (size (colorCounts clothingItems) ≤ length clothingItems)%nat).
  { unfold colorCounts.
    rewrite <- (size_dom (D := gset string)), (counts_dom color), dom_empty_L,
      union_empty_l_L.
    etrans; [apply size_list_to_set_le |]. by rewrite length_fmap. }
  cbv zeta. unfold wardrobeTips.
  destruct (Nat.ltb_spec (size (categoryCounts clothingItems)) 5) as [H5 | H5],
           (Nat.ltb_spec (size (colorCounts clothingItems)) 4) as [H4 | H4],
           (Nat.ltb_spec (length clothingItems) 10) as [H10 | H10];
    cbn [app length Nat.ltb Nat.leb];
    (split; [done |]);
    (split; [intros ?; try lia; repeat constructor |]);
    (split; [intros ?; try lia; repeat constructor |]);
    (split; [intros ?; try lia; repeat constructor |]);
    (split; [intros [=] | intros ?; try lia]); done.
Qed.

Lemma X23_witness :
  "Add more items to get better recommendations"
  ∈ wardrobeTips [tshirtItem; jeansItem]
      (categoryCounts [tshirtItem; jeansItem]) (colorCounts [tshirtItem; jeansItem]).
Proof.
  destruct (X23_wardrobe_tips [tshirtItem; jeansItem]) as (_ & Hfew & _).
  - reflexivity.
  - apply Hfew. simpl. lia.
Defined.

(** * Further properties of the pipeline and of its caller *)

Lemma retryLoop_prefix this pool requiredCategories numRecommendations :
  ∀ attemptsLeft st src k,
    recommendations st `prefix_of`
    recommendations (retryLoop this pool requiredCategories numRecommendations
                       attemptsLeft st src k).1.
Proof.
  induction attemptsLeft as [|n IH]; intros st src k; [done |].
  rewrite retryLoop_step.
  destruct (length (recommendations st) <? numRecommendations)%nat; [| done].
  rewrite bind_run. etrans; [| apply IH].
  destruct (attempt_cases this pool requiredCategories st src k)
    as [-> | (_ & _ & -> & _)]; [done |].
  by apply prefix_app_r.
Qed.

(** X24. A wardrobe that can dress a person is never left without an
    answer: when no dress but a top-layer item and a bottom-layer item
    pass the filters and at least one recommendation is asked for, at
    least one is returned, whatever the draws; the first candidate is
    always kept.
    Stated for an occasion and a weather that are no name inherited
    from [Object.prototype]. *)
Theorem X24_top_and_bottom_yield_a_recommendation this clothingItems
    numRecommendations occasion weather requiredCategories src :
  plainFilter occasion = true → plainFilter weather = true →
  let pool := filteredItems clothingItems occasion weather in
  (1 ≤ numRecommendations)%nat →
  list_find (λ item, category item = "Dress") pool = None →
  inLayer topLayer pool ≠ [] →
  inLayer bottomLayer pool ≠ [] →
  generateOutfitRecommendations this clothingItems numRecommendations
    occasion weather requiredCategories src ≠ [] ∧
  head (collectRecommendations this clothingItems numRecommendations
          occasion weather requiredCategories src)
  = Some (recommend this
            (generateSingleOutfitWithRequired pool outfitTemplate
               requiredCategories src 0%nat).1).
Proof.
  intros _ _.
  intros pool Hn Hfind Htop Hbottom.
  set (outfit := (generateSingleOutfitWithRequired pool outfitTemplate
                    requiredCategories src 0%nat).1).
  assert (Hlen : (2 ≤ length outfit)%nat).
  { destruct (generateSingleOutfitWithRequired_spec pool outfitTemplate
                outfitTemplate_rows_disjoint requiredCategories src 0%nat)
      as ([rest Hrest] & _).
    destruct (chooseBase_separates pool outfitTemplate outfitTemplate_rows_disjoint
                src 0%nat Hfind) as [_ Hsep].
    destruct (Hsep Htop Hbottom) as (top & bottom & Hbase & _).
    fold outfit in Hrest. rewrite Hrest, Hbase. simpl. lia. }
  assert (Hhead : head (collectRecommendations this clothingItems numRecommendations
                          occasion weather requiredCategories src)
                  = Some (recommend this outfit)).
  { unfold collectRecommendations. fold pool.
    destruct numRecommendations as [|n]; [lia |].
    replace (S n * 10)%nat with (S (n * 10 + 9))%nat by lia.
    rewrite retryLoop_step. cbn [recommendations length].
    change (0 <? S n)%nat with true. cbv iota. rewrite bind_run.
    assert (Hfirst : recommendations
                       (attempt this pool requiredCategories (mkCollected [] ∅) src 0%nat).1
                     = [recommend this outfit]).
    { unfold attempt. rewrite bind_run. fold outfit.
      destruct (Nat.ltb_spec (length outfit) 2) as [Hlt | _]; [lia |].
      rewrite bool_decide_false by apply not_elem_of_empty. done. }
    destruct (retryLoop_prefix this pool requiredCategories (S n) (n * 10 + 9)
                (attempt this pool requiredCategories (mkCollected [] ∅) src 0%nat).1
                src
                (attempt this pool requiredCategories (mkCollected [] ∅) src 0%nat).2)
      as [rest Hrest].
    rewrite Hrest, Hfirst. done. }
  split; [| exact Hhead].
  unfold generateOutfitRecommendations, byScore. intros Hnil.
  pose proof (sort_Permutation score
                (collectRecommendations this clothingItems numRecommendations
                   occasion weather requiredCategories src)) as Hperm.
  rewrite Hnil in Hperm. apply Permutation_length in Hperm.
  destruct (collectRecommendations this clothingItems numRecommendations
              occasion weather requiredCategories src); [done | simpl in Hperm; lia].
Qed.

Lemma X24_witness :
  generateOutfitRecommendations newService [tshirtItem; jeansItem; shoesItem] 1
    (Some "Casual") None [] (always draw_zero) ≠ [].
Proof.
  apply (X24_top_and_bottom_yield_a_recommendation newService
           [tshirtItem; jeansItem; shoesItem] 1%nat (Some "Casual") None []
           (always draw_zero)).
  - reflexivity.
  - reflexivity.
  - lia.
  - reflexivity.
  - discriminate.
  - discriminate.
Defined.

Lemma addFromLayer_length pool row b src k :
  (length (b_items (addFromLayer pool row b src k).1) ≤ S (length (b_items b)))%nat ∧
  (inLayer row pool = [] → (addFromLayer pool row b src k).1 = b).
Proof.
  unfold addFromLayer. destruct (inLayer row pool) as [|x0 xs].
  - split; [simpl; lia | done].
  - rewrite bind_run. unfold ret, push. cbn [fst b_items].
    rewrite length_app. simpl. split; [lia | done].
Qed.

(** X25. Without accessories a lone layer yields nothing: when no
    dress, no item of category "Shoes", "Hat" or "Other" and no item of
    a required category passes the filters, and the pool lacks a
    top-layer item or lacks a bottom-layer item, every candidate has at
    most one item and no recommendation is returned. T-shirts and jeans
    in cold weather are such a pool: the T-shirts are filtered out.
    Stated for an occasion and a weather that are no name inherited
    from [Object.prototype]. *)
Theorem X25_lone_layer_yields_nothing this clothingItems numRecommendations
    occasion weather requiredCategories src :
  plainFilter occasion = true → plainFilter weather = true →
  let pool := filteredItems clothingItems occasion weather in
  list_find (λ item, category item = "Dress") pool = None →
  inLayer topLayer pool = [] ∨ inLayer bottomLayer pool = [] →
  hasCategory "Shoes" pool = [] →
  hasCategory "Hat" pool = [] →
  hasCategory "Other" pool = [] →
  (∀ cat, cat ∈ requiredCategories → hasCategory cat pool = []) →
  generateOutfitRecommendations this clothingItems numRecommendations
    occasion weather requiredCategories src = [].
Proof.
  intros _ _.
  intros pool Hfind Hlayer Hshoes Hhat Hother Hreq.
  assert (Hgen : ∀ src' k, (length (generateSingleOutfitWithRequired pool
                              outfitTemplate requiredCategories src' k).1 ≤ 1)%nat).
  { intros src' k. unfold generateSingleOutfitWithRequired.
    rewrite bind_run.
    set (r0 := chooseBase pool outfitTemplate src' k).
    assert (Hbase : (length (b_items r0.1) ≤ 1)%nat).
    { unfold r0, chooseBase. rewrite Hfind, bind_run.
      set (r := addFromLayer pool (layer outfitTemplate 0) (mkBuilder [] ∅) src' k).
      destruct (addFromLayer_length pool (layer outfitTemplate 0) (mkBuilder [] ∅)
                  src' k) as [Ht Ht0].
      destruct (addFromLayer_length pool (layer outfitTemplate 1) r.1 src' r.2)
        as [Hb Hb0].
      fold r in Ht, Ht0. cbn [b_items length] in Ht.
      destruct Hlayer as [Hnone | Hnone].
      - assert (Hzero : length (b_items r.1) = 0%nat) by (by rewrite (Ht0 Hnone)).
        etrans; [exact Hb | lia].
      - rewrite (Hb0 Hnone). exact Ht. }
    rewrite bind_run, addAllRequired_nothing_to_add
      by (intros cat Hcat; right; by apply Hreq).
    cbn [fst snd].
    rewrite bind_run, (addAccessory_none pool "Shoes") by done. cbn [fst snd].
    rewrite bind_run, (addAccessory_none pool "Hat") by done. cbn [fst snd].
    rewrite bind_run, (addAccessory_none pool "Other") by done. exact Hbase. }
  assert (Hall : Forall (λ _, False)
            (generateOutfitRecommendations this clothingItems numRecommendations
               occasion weather requiredCategories src)).
  { apply generateOutfitRecommendations_Forall. intros src' k outfit Hlen.
    specialize (Hgen src' k). fold pool in outfit. fold outfit in Hgen. lia. }
  destruct (generateOutfitRecommendations this clothingItems numRecommendations
              occasion weather requiredCategories src) as [|r rs]; [done |].
  by apply Forall_cons in Hall as [? _].
Qed.

Lemma X25_witness :
  generateOutfitRecommendations newService
    [tshirtItem; jeansItem; mkItem "t2" "T-shirt" "blue"; mkItem "j2" "Jeans" "black"]
    3 None (Some "Cold") [] (always draw_high) = [].
Proof.
  apply (X25_lone_layer_yields_nothing newService
           [tshirtItem; jeansItem; mkItem "t2" "T-shirt" "blue";
            mkItem "j2" "Jeans" "black"]
           3%nat None (Some "Cold") [] (always draw_high));
    try reflexivity.
  - left. reflexivity.
  - intros cat Hcat. by apply elem_of_nil in Hcat.
Defined.

(** ** The screen's request *)

Lemma occasion_options_known o :
  o ∈ OCCASION_OPTIONS →
  o = "All" ∨ (o ≠ "" ∧ ∃ allowed, occasionMap !! o = Some allowed).
Proof.
  unfold OCCASION_OPTIONS. rewrite !elem_of_cons, elem_of_nil.
  intros [-> | [-> | [-> | [-> | [-> | []]]]]]; [by left | right ..];
    (split; [done | eexists; vm_compute; reflexivity]).
Qed.

Lemma weather_options_known w :
  w ∈ WEATHER_OPTIONS →
  w = "Any" ∨ (w ≠ "" ∧ ∃ allowed, weatherMap !! w = Some allowed).
Proof.
  unfold WEATHER_OPTIONS. rewrite !elem_of_cons, elem_of_nil.
  intros [-> | [-> | [-> | [-> | [-> | []]]]]]; [by left | right ..];
    (split; [done | eexists; vm_compute; reflexivity]).
Qed.

(** X26. What the recommendations screen gets for a selection of its
    two pickers, with two or more items in the closet: a list of at most
    six recommendations, made of closet items; unless the occasion is
    "All", the service has a list for the selected occasion and every
    item's category is on it, and likewise for the weather unless it is
    "Any". Every option the screen offers is one the service knows. *)
Theorem X26_screen_request this clothingItems selectedOccasion selectedWeather
    requiredCategories src :
  (2 ≤ length clothingItems)%nat →
  selectedOccasion ∈ OCCASION_OPTIONS →
  selectedWeather ∈ WEATHER_OPTIONS →
  ∃ recs,
    screenRecommendations this clothingItems selectedOccasion selectedWeather
      requiredCategories src = Some recs ∧
    (length recs ≤ 6)%nat ∧
    Forall (λ r, ∀ x, x ∈ items r →
        x ∈ clothingItems ∧
        (selectedOccasion ≠ "All" →
           ∃ allowed, occasionMap !! selectedOccasion = Some allowed ∧
                      category x ∈ allowed) ∧
        (selectedWeather ≠ "Any" →
           ∃ allowed, weatherMap !! selectedWeather = Some allowed ∧
                      category x ∈ allowed)) recs.
Proof.
  intros Hlen Hocc Hwea. unfold screenRecommendations.
  destruct (Nat.ltb_spec (length clothingItems) 2) as [Hlt | _]; [lia |].
  eexists. split; [reflexivity |]. split.
  - unfold generateOutfitRecommendations, byScore.
    rewrite (sort_Permutation score). unfold collectRecommendations.
    apply retryLoop_length. cbn [recommendations length]. lia.
  - apply generateOutfitRecommendations_Forall.
    intros src' k outfit _ x Hx. cbn [items recommend] in Hx.
    apply (generateSingleOutfitWithRequired_spec _ outfitTemplate
             outfitTemplate_rows_disjoint requiredCategories src' k) in Hx.
    apply elem_of_filteredItems in Hx as (Hin & Ho & Hw).
    split; [exact Hin |]. split.
    + intros Hne.
      destruct (occasion_options_known _ Hocc) as [-> | (Hnonempty & allowed & Hrow)];
        [done |].
      exists allowed. split; [exact Hrow |].
      destruct (String.eqb_spec selectedOccasion "All") as [-> | _]; [done |].
      specialize (Ho selectedOccasion eq_refl Hnonempty).
      by rewrite Hrow in Ho.
    + intros Hne.
      destruct (weather_options_known _ Hwea) as [-> | (Hnonempty & allowed & Hrow)];
        [done |].
      exists allowed. split; [exact Hrow |].
      destruct (String.eqb_spec selectedWeather "Any") as [-> | _]; [done |].
      specialize (Hw selectedWeather eq_refl Hnonempty).
      by rewrite Hrow in Hw.
Qed.

Lemma X26_witness :
  ∃ recs,
    screenRecommendations newService [tshirtItem; shortsItem; hatItem; shoesItem]
      "Casual" "Hot" [] (always draw_high) = Some recs ∧
    items <$> recs = [[tshirtItem; shortsItem; shoesItem]] ∧
    (length recs ≤ 6)%nat ∧
    Forall (λ r, ∀ x, x ∈ items r →
        x ∈ [tshirtItem; shortsItem; hatItem; shoesItem] ∧
        ("Casual" ≠ "All" →
           ∃ allowed, occasionMap !! "Casual" = Some allowed ∧ category x ∈ allowed) ∧
        ("Hot" ≠ "Any" →
           ∃ allowed, weatherMap !! "Hot" = Some allowed ∧ category x ∈ allowed))
      recs.
Proof.
  assert (Hscreen :
            screenRecommendations newService
              [tshirtItem; shortsItem; hatItem; shoesItem]
              "Casual" "Hot" [] (always draw_high)
            = Some (generateOutfitRecommendations newService
                      [tshirtItem; shortsItem; hatItem; shoesItem] 6
                      (Some "Casual") (Some "Hot") [] (always draw_high)))
    by reflexivity.
  assert (Hitems :
            items <$> generateOutfitRecommendations newService
                        [tshirtItem; shortsItem; hatItem; shoesItem] 6
                        (Some "Casual") (Some "Hot") [] (always draw_high)
            = [[tshirtItem; shortsItem; shoesItem]])
    by (vm_compute; reflexivity).
  destruct (X26_screen_request newService [tshirtItem; shortsItem; hatItem; shoesItem]
              "Casual" "Hot" [] (always draw_high)) as (recs & Hrecs & Hlen & Hall).
  - simpl. lia.
  - unfold OCCASION_OPTIONS. rewrite !elem_of_cons. right. by left.
  - unfold WEATHER_OPTIONS. rewrite !elem_of_cons. right. by left.
  - exists recs. split; [exact Hrecs |]. split; [| split; [exact Hlen | exact Hall]].
    rewrite Hscreen in Hrecs. apply (inj Some) in Hrecs.
    rewrite <- Hrecs. exact Hitems.
Defined.

(** ** Likes and dislikes *)

Lemma NoDup_fmap_eq {A B : Type} (f : A → B) (l : list A) x y :
  NoDup (f <$> l) → x ∈ l → y ∈ l → f x = f y → x = y.
Proof.
  intros Hnd [i Hi]%list_elem_of_lookup [j Hj]%list_elem_of_lookup Hxy.
  assert (i = j) as ->.
  { apply (NoDup_lookup (f <$> l) i j (f x)); [exact Hnd | |].
    - by rewrite list_lookup_fmap, Hi.
    - by rewrite list_lookup_fmap, Hj, Hxy. }
  congruence.
Qed.

(** X27. Feedback is kept per outfit: for two different
    recommendations of one returned list, a like or a dislike of the
    first leaves the feedback recorded for the second as it was, since
    the keys of one list are pairwise different; and for one
    recommendation the last tap wins.
    Stated for an occasion and a weather that are no name inherited
    from [Object.prototype]. *)
Theorem X27_feedback_is_per_outfit this clothingItems numRecommendations
    occasion weather requiredCategories src feedbackMap r1 r2 :
  plainFilter occasion = true → plainFilter weather = true →
  let recs := generateOutfitRecommendations this clothingItems numRecommendations
                occasion weather requiredCategories src in
  r1 ∈ recs → r2 ∈ recs → r1 ≠ r2 →
  handleLike feedbackMap r1 !! outfitKey (items r2)
    = feedbackMap !! outfitKey (items r2) ∧
  handleDislike feedbackMap r1 !! outfitKey (items r2)
    = feedbackMap !! outfitKey (items r2) ∧
  handleDislike (handleLike feedbackMap r1) r1 !! outfitKey (items r1)
    = Some Dislike ∧
  handleLike (handleDislike feedbackMap r1) r1 !! outfitKey (items r1)
    = Some Like.
Proof.
  intros _ _.
  intros recs H1 H2 Hne.
  assert (Hnd : NoDup ((λ r, outfitKey (items r)) <$> recs)).
  { unfold recs, generateOutfitRecommendations, byScore.
    rewrite (sort_Permutation score). unfold collectRecommendations.
    apply retryLoop_keys; cbn [recommendations].
    - constructor.
    - intros r Hr. by apply elem_of_nil in Hr. }
  assert (Hkeys : outfitKey (items r1) ≠ outfitKey (items r2)).
  { intros Heq. apply Hne.
    exact (NoDup_fmap_eq (λ r, outfitKey (items r)) recs r1 r2 Hnd H1 H2 Heq). }
  unfold handleLike, handleDislike. fold (outfitKey (items r1)).
  rewrite !lookup_insert_ne by exact Hkeys.
  rewrite !lookup_insert_eq. done.
Qed.

Lemma X27_witness :
  handleLike ∅ (recommend newService [shirtItem; jeansItem])
    !! outfitKey [tshirtItem; jeansItem] = None.
Proof.
  destruct (X27_feedback_is_per_outfit newService [tshirtItem; shirtItem; jeansItem]
              2%nat None None [] (switch_at 2 draw_zero draw_high) ∅
              (recommend newService [shirtItem; jeansItem])
              (recommend newService [tshirtItem; jeansItem])) as [Hlike _].
  - reflexivity.
  - reflexivity.
  - vm_compute. apply list_elem_of_here.
  - vm_compute. apply list_elem_of_further, list_elem_of_here.
  - intros Heq. apply (f_equal items) in Heq. discriminate Heq.
  - exact Hlike.
Defined.

(** * Outfits that do not dress a person *)

(** Without a filter the pool is the wardrobe. *)
Lemma filteredItems_unfiltered clothingItems :
  filteredItems clothingItems None None = clothingItems.
Proof. reflexivity. Qed.

(** A wardrobe without a top-layer item (a dress is one) gets, without
    any filter, only recommendations that hold neither a dress nor a
    top-layer item. *)
Lemma no_top_layer_no_complete_outfit this clothingItems numRecommendations
    requiredCategories src :
  (∀ x, x ∈ clothingItems → category x ∉ topLayer) →
  Forall (λ r, ¬ complete (items r))
    (generateOutfitRecommendations this clothingItems numRecommendations
       None None requiredCategories src).
Proof.
  intros Hnone. apply generateOutfitRecommendations_Forall.
  intros src' k outfit _ Hcomplete. cbn [items recommend] in Hcomplete.
  destruct (generateSingleOutfitWithRequired_spec
              (filteredItems clothingItems None None) outfitTemplate
              outfitTemplate_rows_disjoint requiredCategories src' k)
    as (_ & _ & Hpool).
  fold outfit in Hpool. rewrite filteredItems_unfiltered in Hpool.
  destruct Hcomplete as [(x & Hx & Hcat) | [(x & Hx & Hcat) _]].
  - apply (Hnone x (Hpool x Hx)). rewrite Hcat.
    apply (bool_decide_unpack _). vm_compute. exact I.
  - exact (Hnone x (Hpool x Hx) Hcat).
Qed.

(** C6. The invariant fails without any filter: for the closet of the
    jeans "b" and the shoes "e", with the pickers of the screen on
    "All" and "Any" and no required category, and draws of 0.9, the
    screen receives one recommendation, the jeans with the shoes, which
    holds neither a dress nor a top-layer item. The guard before it is
    commented "Ensure we have at least a top and bottom (or a dress)"
    and tests the number of items only. *)
Theorem C6_outfit_without_top_or_dress_returned :
  ∃ result,
    screenRecommendations newService [jeansItem; shoesItem] "All" "Any" []
      (always draw_high) = Some result ∧
    result = generateOutfitRecommendations newService [jeansItem; shoesItem] 6
               None None [] (always draw_high) ∧
    items <$> result = [[jeansItem; shoesItem]] ∧
    Forall (λ r, items r ≠ [] ∧ NoDup (items r) ∧ ¬ complete (items r)) result.
Proof.
  exists (generateOutfitRecommendations newService [jeansItem; shoesItem] 6
            None None [] (always draw_high)).
  split; [reflexivity |]. split; [reflexivity |].
  split; [vm_compute; reflexivity |].
  pose proof (returned_outfit_invariant newService [jeansItem; shoesItem] 6%nat
                None None [] (always draw_high)) as Hinv.
  pose proof (no_top_layer_no_complete_outfit newService [jeansItem; shoesItem]
                6%nat [] (always draw_high)) as Hnone.
  rewrite Forall_forall in Hinv. rewrite Forall_forall in Hnone.
  apply Forall_forall. intros r Hr.
  destruct (Hinv r Hr) as (Hne & Hnd & _).
  split; [exact Hne |]. split; [exact Hnd |].
  apply Hnone; [| exact Hr].
  intros x Hx.
  apply elem_of_cons in Hx as [-> | Hx];
    [apply (bool_decide_unpack _); vm_compute; exact I |].
  apply elem_of_cons in Hx as [-> | Hx];
    [apply (bool_decide_unpack _); vm_compute; exact I |].
  by apply elem_of_nil in Hx.
Qed.
